(** * hstd.neighbor: neighbor utility functions

    A shallow embedding of [packages/engine/stdlib/src/py/hstd/neighbor.py]
    and the properties of its filters.

    Conventions of the embedding:
    - an agent is a Python mapping: a finite map from keys (strings or
      integers) to values; a subscript on an absent key raises [KeyError];
    - coordinates are Python ints (unbounded, exact arithmetic), so a position
      or a direction is a list of [Z];
    - distances and radii are Python numbers compared with [<=] and [>=];
      Python compares ints and floats by their exact value, so they are
      rationals here;
    - a raised exception is the [Err] result of the error monad;
    - [filter(f, xs)] is lazy: the call builds an iterator and the predicate
      runs (and may raise) only when the iterator is consumed. *)

From Stdlib Require Import ZArith QArith List Permutation.
From stdpp Require Import gmap strings list fin_maps.
Import ListNotations.

Local Open Scope string_scope.
Local Open Scope Z_scope.

(** ** Python values and exceptions *)

(** Keys of a mapping: [agent["position"]] and [neighbor[0]] are both
    subscripts of the same mapping. *)
Inductive key : Type :=
| KStr (s : string)
| KInt (i : Z).

#[global] Instance key_eq_dec : EqDecision key.
Proof. solve_decision. Defined.

#[global] Instance key_countable : Countable key.
Proof.
  refine (inj_countable'
            (fun k => match k with KStr s => inl s | KInt i => inr i end)
            (fun x => match x with inl s => KStr s | inr i => KInt i end) _).
  intros k; destruct k; reflexivity.
Defined.

Inductive value : Type :=
| VNone
| VBool (b : bool)
| VNum (n : Z)
| VList (l : list Z).

(** [pos_error] and [dir_error] are the two module-level exception objects;
    the others are the built-in exceptions the subscripts can raise. *)
Inductive exn : Type :=
| pos_error
| dir_error
| KeyError (k : key)
| IndexError
| TypeError
| ValueError.

Inductive result (A : Type) : Type :=
| Ok (a : A)
| Err (e : exn).

Arguments Ok {A} a.
Arguments Err {A} e.

Definition bind {A B : Type} (m : result A) (f : A -> result B) : result B :=
  match m with
  | Ok a => f a
  | Err e => Err e
  end.

Notation "'do' x <- m ; k" := (bind m (fun x => k))
  (at level 10, x name, m at level 100, k at level 200,
   format "'[v' 'do'  x  <-  m ; '/' k ']'").

(** Modelled from the spec: [AgentState] is declared in [hstd/agent.py],
    which is not part of the sources.  The spec describes an agent record as
    a mapping from field name to value, read by subscript. *)
Abbreviation AgentState := (gmap key value).

(** [m[k]] on a mapping. *)
Definition getitem (m : AgentState) (k : key) : result value :=
  match m !! k with
  | Some v => Ok v
  | None => Err (KeyError k)
  end.

(** Truth value of an object, as [not x], [if x] and [bool(x)] test it. *)
Definition truthy (v : value) : bool :=
  match v with
  | VNone => false
  | VBool b => b
  | VNum n => negb (n =? 0)
  | VList l => match l with [] => false | _ :: _ => true end
  end.

(** [len(v)]. *)
Definition py_len (v : value) : result nat :=
  match v with
  | VList l => Ok (length l)
  | _ => Err TypeError
  end.

(** [v[ind]] on a sequence, for an index from [range(n)]. *)
Definition index (v : value) (ind : nat) : result Z :=
  match v with
  | VList l => match nth_error l ind with
               | Some x => Ok x
               | None => Err IndexError
               end
  | _ => Err TypeError
  end.

Definition Z_of_bool (b : bool) : Z := if b then 1 else 0.

(** [a == b]: numbers by value (a bool is the int 0 or 1), lists element by
    element, [None] only with itself. *)
Definition py_eq (a b : value) : bool :=
  match a, b with
  | VNone, VNone => true
  | VBool x, VBool y => Bool.eqb x y
  | VBool x, VNum y => Z_of_bool x =? y
  | VNum x, VBool y => x =? Z_of_bool y
  | VNum x, VNum y => x =? y
  | VList x, VList y => bool_decide (x = y)
  | _, _ => false
  end.

(** [a or b] and [a and b] return one of their operands. *)
Definition py_or (a b : value) : value := if truthy a then a else b.
Definition py_and (a b : value) : value := if truthy a then b else a.

(** [[f(ind) for ind in range(n)]]: the elements are computed in order and
    the first exception ends the comprehension. *)
Fixpoint comprehension {A : Type} (f : nat -> result A) (inds : list nat)
  : result (list A) :=
  match inds with
  | [] => Ok []
  | ind :: inds' =>
      do x <- f ind;
      do xs <- comprehension f inds';
      Ok (x :: xs)
  end.

(** [functools.reduce(f, xs)] without an initial value: the first element
    starts the accumulator and an empty sequence is a [TypeError]. *)
Definition reduce {A : Type} (f : A -> A -> A) (xs : list A) : result A :=
  match xs with
  | [] => Err TypeError
  | x :: xs' => Ok (fold_left f xs' x)
  end.

(** ** The filter iterator *)

(** The object [filter(pred, items)] returns: nothing has run yet. *)
Record filter_obj : Type := Filter {
  fpred : AgentState -> result bool;
  fitems : list AgentState
}.

(** [next(it)]: the next kept item and the iterator after it, [None] for
    [StopIteration]. *)
Fixpoint next_from (p : AgentState -> result bool) (items : list AgentState)
  : result (option (AgentState * list AgentState)) :=
  match items with
  | [] => Ok None
  | x :: items' =>
      do b <- p x;
      if b then Ok (Some (x, items')) else next_from p items'
  end.

Definition next (it : filter_obj)
  : result (option (AgentState * filter_obj)) :=
  do r <- next_from (fpred it) (fitems it);
  Ok (option_map (fun '(x, rest) => (x, Filter (fpred it) rest)) r).

(** [list(it)]: the iterator consumed to its end. *)
Fixpoint drain (p : AgentState -> result bool) (items : list AgentState)
  : result (list AgentState) :=
  match items with
  | [] => Ok []
  | x :: items' =>
      do b <- p x;
      do xs <- drain p items';
      Ok (if b then x :: xs else xs)
  end.

Definition to_list (it : filter_obj) : result (list AgentState) :=
  drain (fpred it) (fitems it).

(** ** The functions of neighbor.py *)

Definition raise_unless {A : Type} (v : value) (e : exn) (k : result A)
  : result A :=
  if negb (truthy v) then Err e else k.

(** The inner function [on_position] of [neighbors_on_position]; [agent] is
    the variable it closes over.  The candidate is subscripted with the
    integer [ind] itself. *)
Definition on_position (agent neighbor : AgentState) : result bool :=
  do pos <- getitem agent (KStr "position");
  do n <- py_len pos;
  do pos_equal <-
    comprehension
      (fun ind =>
         do x <- index pos ind;
         do y <- getitem neighbor (KInt (Z.of_nat ind));
         Ok (VBool (py_eq (VNum x) y)))
      (seq 0 n);
  do all_equal <- reduce (fun a b => VBool (truthy (py_and a b))) pos_equal;
  Ok (truthy all_equal).

Definition neighbors_on_position (agent : AgentState)
    (neighbors : list AgentState) : result filter_obj :=
  do pos <- getitem agent (KStr "position");
  raise_unless pos pos_error
    (Ok (Filter (on_position agent) neighbors)).

Section Spatial.

(** The four distance functions are imported from [hstd.spatial]; the
    filter only calls them, on two position values. *)
Variables manhattan_distance euclidean_distance
          euclidean_squared_distance chebyshev_distance
  : value -> value -> result Q.

(** The dictionary [func] of [neighbors_in_radius]. *)
Definition func : gmap string (value -> value -> result Q) :=
  {[ "manhattan" := manhattan_distance;
     "euclidean" := euclidean_distance;
     "euclidean_squared" := euclidean_squared_distance;
     "chebyshev" := chebyshev_distance ]}.

(** The inner function [in_radius]: [func[distance_function]] is looked up
    before the arguments of the call are evaluated. *)
Definition in_radius (agent : AgentState) (max_radius min_radius : Q)
    (distance_function : string) (neighbor : AgentState) : result bool :=
  do pos <- getitem agent (KStr "position");
  do f <- match func !! distance_function with
          | Some f => Ok f
          | None => Err (KeyError (KStr distance_function))
          end;
  do n_pos <- getitem neighbor (KStr "position");
  do d <- f n_pos pos;
  Ok (Qle_bool d max_radius && Qle_bool min_radius d).

Definition neighbors_in_radius (agent : AgentState)
    (neighbors : list AgentState) (max_radius min_radius : Q)
    (distance_function : string) (z_axis : bool) : result filter_obj :=
  do pos <- getitem agent (KStr "position");
  raise_unless pos pos_error
    (Ok (Filter (in_radius agent max_radius min_radius distance_function)
           neighbors)).

End Spatial.

(** [[n_pos[ind] - a_pos[ind] for ind in range(3)]]. *)
Definition displacement (n_pos a_pos : value) : result (list Z) :=
  comprehension
    (fun ind =>
       do n <- index n_pos ind;
       do a <- index a_pos ind;
       Ok (n - a))
    (seq 0 3).

Definition in_front_planar (agent neighbor : AgentState) : result bool :=
  do a_pos <- getitem agent (KStr "position");
  do n_pos <- getitem neighbor (KStr "position");
  do a_dir <- getitem agent (KStr "direction");
  do d <- displacement n_pos a_pos;
  match d with
  | [dx; dy; dz] =>
      do a0 <- index a_dir 0;
      do a1 <- index a_dir 1;
      do a2 <- index a_dir 2;
      let D := a0 * dx + a1 * dy + a2 * dz in
      Ok (D >? 0)
  | _ => Err ValueError
  end.

(** [[ax, ay, az] = v]: the target list fixes the length at three. *)
Definition unpack3 (v : value) : result (Z * Z * Z) :=
  match v with
  | VList [x; y; z] => Ok (x, y, z)
  | VList _ => Err ValueError
  | _ => Err TypeError
  end.

Definition is_linear (agent neighbor : AgentState) (front : bool)
  : result bool :=
  do a_pos <- getitem agent (KStr "position");
  do n_pos <- getitem neighbor (KStr "position");
  do d <- displacement n_pos a_pos;
  match d with
  | [dx; dy; dz] =>
      do a_dir <- getitem agent (KStr "direction");
      do a <- unpack3 a_dir;
      let '(ax, ay, az) := a in
      let cross_product :=
        [VNum (dy * az - dz * ay); VNum (dx * az - dz * ax);
         VNum (dx * ay - dy * ax)] in
      do all_zero <-
        reduce (fun a b => VBool (negb (truthy (py_or a b)))) cross_product;
      if negb (truthy all_zero) then Ok false
      else
        let same_dir :=
          ((dx >? 0) && (ax >? 0)) || ((dy >? 0) && (ay >? 0))
          || ((dz >? 0) && (az >? 0)) in
        Ok (Bool.eqb same_dir front)
  | _ => Err ValueError
  end.

Definition neighbors_in_front (agent : AgentState)
    (neighbors : list AgentState) (colinear : bool) : result filter_obj :=
  do pos <- getitem agent (KStr "position");
  raise_unless pos pos_error
    (do dir <- getitem agent (KStr "direction");
     raise_unless dir dir_error
       (if colinear
        then Ok (Filter (fun n => is_linear agent n true) neighbors)
        else Ok (Filter (fun n => in_front_planar agent n) neighbors))).

Definition neighbors_behind (agent : AgentState)
    (neighbors : list AgentState) (colinear : bool) : result filter_obj :=
  do pos <- getitem agent (KStr "position");
  raise_unless pos pos_error
    (do dir <- getitem agent (KStr "direction");
     raise_unless dir dir_error
       (if colinear
        then Ok (Filter (fun n => is_linear agent n false) neighbors)
        else Ok (Filter
                   (fun n => do b <- in_front_planar agent n; Ok (negb b))
                   neighbors))).

(** ** Concrete agents *)

Definition mk_agent (position direction : value) : AgentState :=
  {[ KStr "position" := position; KStr "direction" := direction ]}.

Definition at_position (position : list Z) : AgentState :=
  {[ KStr "position" := VList position ]}.

Definition ex_agent : AgentState := mk_agent (VList [0; 0; 0]) (VList [1; 0; 0]).

(** ** The distance functions of hstd.spatial *)

(** Component-wise differences of two coordinate sequences of one length. *)
Definition differences (a b : value) : result (list Z) :=
  match a, b with
  | VList x, VList y =>
      if (length x =? length y)%nat then Ok (zip_with Z.sub x y)
      else Err ValueError
  | _, _ => Err TypeError
  end.

Definition Zsum (l : list Z) : Z := fold_right Z.add 0 l.
Definition Zmaximum (l : list Z) : Z := fold_right Z.max 0 l.
Definition square (x : Z) : Z := x * x.

(** Modelled from the spec: [hstd/spatial.py], which defines the four
    distance functions, is not part of the sources.  Manhattan is the sum of
    the absolute component differences. *)
Definition manhattan_distance (a b : value) : result Q :=
  do d <- differences a b;
  Ok (inject_Z (Zsum (map Z.abs d))).

(** Modelled from the spec: the squared Euclidean distance of
    [hstd/spatial.py] is the sum of the squared component differences. *)
Definition euclidean_squared_distance (a b : value) : result Q :=
  do d <- differences a b;
  Ok (inject_Z (Zsum (map square d))).

(** Modelled from the spec: the Chebyshev distance of [hstd/spatial.py] is
    the largest absolute component difference. *)
Definition chebyshev_distance (a b : value) : result Q :=
  do d <- differences a b;
  Ok (inject_Z (Zmaximum (map Z.abs d))).

(** Modelled from the spec: the Euclidean distance of [hstd/spatial.py] is
    the square root of the sum of the squared component differences.  The
    model is exact and therefore partial: it answers only where that sum is
    a perfect square, and is undefined ([ValueError]) where the root is
    irrational and Python would round it to a float. *)
Definition euclidean_distance (a b : value) : result Q :=
  do d <- differences a b;
  let s := Zsum (map square d) in
  let r := Z.sqrt s in
  if r * r =? s then Ok (inject_Z r) else Err ValueError.

(** ** Specification-side predicates *)

(** The names the spec lists for [distance_function], each with the
    function it selects. *)
Definition named_distances (md ed esd cd : value -> value -> result Q)
  : list (string * (value -> value -> result Q)) :=
  [("manhattan", md); ("euclidean", ed);
   ("euclidean_squared", esd); ("chebyshev", cd)].

Definition distance_names : list string :=
  ["manhattan"; "euclidean"; "euclidean_squared"; "chebyshev"].

(** [min_radius <= dist(A.position, c.position) <= max_radius], with the
    agent's position as the first argument. *)
Definition within_radius (dist : value -> value -> result Q) (pos : value)
    (max_radius min_radius : Q) (c : AgentState) : bool :=
  match c !! KStr "position" with
  | Some p =>
      match dist pos p with
      | Ok d => Qle_bool min_radius d && Qle_bool d max_radius
      | Err _ => false
      end
  | None => false
  end.

(** A field that holds exactly three coordinates. *)
Definition vec3 (m : AgentState) (field : string) (v : Z * Z * Z) : Prop :=
  let '(x, y, z) := v in m !! KStr field = Some (VList [x; y; z]).

Definition sub3 (a b : Z * Z * Z) : Z * Z * Z :=
  let '(ax, ay, az) := a in
  let '(bx, by_, bz) := b in
  (ax - bx, ay - by_, az - bz).

Definition dot3 (a b : Z * Z * Z) : Z :=
  let '(ax, ay, az) := a in
  let '(bx, by_, bz) := b in
  ax * bx + ay * by_ + az * bz.

(** The cross product [a x b]. *)
Definition cross3 (a b : Z * Z * Z) : Z * Z * Z :=
  let '(ax, ay, az) := a in
  let '(bx, by_, bz) := b in
  (ay * bz - az * by_, az * bx - ax * bz, ax * by_ - ay * bx).

(** The same-direction flag of the spec:
    [(dx>0 and ax>0) or (dy>0 and ay>0) or (dz>0 and az>0)]. *)
Definition same_direction (d a : Z * Z * Z) : bool :=
  let '(dx, dy, dz) := d in
  let '(ax, ay, az) := a in
  ((0 <? dx) && (0 <? ax)) || ((0 <? dy) && (0 <? ay))
  || ((0 <? dz) && (0 <? az)).

(** A field whose value is there and falsy ([None], an empty sequence,
    zero, [False]). *)
Definition falsy_field (m : AgentState) (field : string) : Prop :=
  exists v, m !! KStr field = Some v /\ truthy v = false.

Definition truthy_field (m : AgentState) (field : string) : Prop :=
  exists v, m !! KStr field = Some v /\ truthy v = true.

(** The three coordinates of a candidate's position. *)
Definition position3 (c : AgentState) : option (Z * Z * Z) :=
  match c !! KStr "position" with
  | Some (VList [x; y; z]) => Some (x, y, z)
  | _ => None
  end.

(** [D] for a candidate, seen from an agent at [p] facing [a]. *)
Definition planar_dot (a p : Z * Z * Z) (c : AgentState) : option Z :=
  match position3 c with
  | Some n => Some (dot3 a (sub3 n p))
  | None => None
  end.

Definition ahead (a p : Z * Z * Z) (c : AgentState) : bool :=
  match planar_dot a p c with
  | Some D => 0 <? D
  | None => false
  end.

(** ** Outcomes of a call *)

(** The call returns an iterator and consuming it gives [kept]. *)
Definition yields (r : result filter_obj) (kept : list AgentState) : Prop :=
  exists it, r = Ok it /\ to_list it = Ok kept.

(** The call itself returns an iterator; the exception appears when the
    iterator is evaluated, at the first [next] and so for [list] too. *)
Definition raises_when_evaluated (r : result filter_obj) (e : exn) : Prop :=
  exists it, r = Ok it /\ next it = Err e /\ to_list it = Err e.

(** ** Further specification-side definitions *)

(** The verdict of a predicate on an item, false where it raises. *)
Definition accepts (p : AgentState -> result bool) (x : AgentState) : bool :=
  match p x with
  | Ok b => b
  | Err _ => false
  end.

(** A call that, when it returns, returns a filter over the candidates it
    was given, with a predicate that does not depend on them. *)
Definition same_predicate (call : list AgentState -> result filter_obj)
  : Prop :=
  forall neighbors it,
    call neighbors = Ok it ->
    fitems it = neighbors
    /\ forall others, call others = Ok (Filter (fpred it) others).

(** A field whose sequence starts with the three given coordinates. *)
Definition starts3 (m : AgentState) (field : string) (v : Z * Z * Z) : Prop :=
  let '(x, y, z) := v in
  exists rest, m !! KStr field = Some (VList (x :: y :: z :: rest)).

Definition add3 (a b : Z * Z * Z) : Z * Z * Z :=
  let '(ax, ay, az) := a in
  let '(bx, by_, bz) := b in
  (ax + bx, ay + by_, az + bz).


(** [pos[i] == c[start + i]] for every index [i] of [pos], the candidate
    being subscripted with the integer; an absent key counts as false here
    (the code raises there). *)
Fixpoint subscripts_equal (c : AgentState) (start : nat) (pos : list Z)
  : bool :=
  match pos with
  | [] => true
  | x :: pos' =>
      match c !! KInt (Z.of_nat start) with
      | Some y => py_eq (VNum x) y
      | None => false
      end
      && subscripts_equal c (S start) pos'
  end.

(** The integer keys [start, start + 1, ...] under which a candidate must
    hold a value for [on_position] not to raise. *)
Fixpoint has_subscripts (c : AgentState) (start : nat) (pos : list Z)
  : Prop :=
  match pos with
  | [] => True
  | _ :: pos' =>
      is_Some (c !! KInt (Z.of_nat start)) /\ has_subscripts c (S start) pos'
  end.

(** The list [pos_equal] of [on_position] for a candidate that holds a
    value under each integer key. *)
Fixpoint subscript_verdicts (c : AgentState) (start : nat) (pos : list Z)
  : list bool :=
  match pos with
  | [] => []
  | x :: pos' =>
      match c !! KInt (Z.of_nat start) with
      | Some y => py_eq (VNum x) y
      | None => false
      end
      :: subscript_verdicts c (S start) pos'
  end.

(** ** Consuming a filter *)

Lemma getitem_lookup (m : AgentState) (k : key) (v : value) :
  m !! k = Some v -> getitem m k = Ok v.
Proof. intros H. unfold getitem. now rewrite H. Qed.

Lemma getitem_absent (m : AgentState) (k : key) :
  m !! k = None -> getitem m k = Err (KeyError k).
Proof. intros H. unfold getitem. now rewrite H. Qed.

(** A predicate that never raises on the items makes the consumed filter
    the ordinary list filter: same elements, same order. *)
Lemma drain_filter (p : AgentState -> result bool) (q : AgentState -> bool)
    (items : list AgentState) :
  (forall x, In x items -> p x = Ok (q x)) ->
  drain p items = Ok (List.filter q items).
Proof.
  induction items as [|x items IH]; intros Hp; simpl.
  - reflexivity.
  - rewrite (Hp x) by (left; reflexivity). simpl.
    rewrite IH by (intros y Hy; apply Hp; right; exact Hy). simpl.
    reflexivity.
Qed.

(** The first item on which the predicate raises ends the consumption with
    that exception. *)
Lemma drain_raises_first (p : AgentState -> result bool) (x : AgentState)
    (items : list AgentState) (e : exn) :
  p x = Err e -> drain p (x :: items) = Err e.
Proof. intros H. simpl. now rewrite H. Qed.

Lemma next_raises_first (p : AgentState -> result bool) (x : AgentState)
    (items : list AgentState) (e : exn) :
  p x = Err e -> next (Filter p (x :: items)) = Err e.
Proof. intros H. unfold next. simpl. now rewrite H. Qed.

(** ** Symmetry of the distance functions *)

Lemma zip_with_sub_swap (x y : list Z) :
  zip_with Z.sub y x = map Z.opp (zip_with Z.sub x y).
Proof.
  revert y. induction x as [|a x IH]; intros [|b y]; simpl; trivial.
  rewrite IH. f_equal. lia.
Qed.

Lemma differences_swap (a b : value) :
  differences b a = (do d <- differences a b; Ok (map Z.opp d)).
Proof.
  destruct a as [| | |x], b as [| | |y]; simpl; trivial.
  rewrite (Nat.eqb_sym (length y) (length x)).
  destruct (length x =? length y)%nat; simpl; trivial.
  now rewrite zip_with_sub_swap.
Qed.

Lemma map_abs_opp (d : list Z) : map Z.abs (map Z.opp d) = map Z.abs d.
Proof.
  rewrite List.map_map. apply List.map_ext. intros x. apply Z.abs_opp.
Qed.

Lemma map_square_opp (d : list Z) : map square (map Z.opp d) = map square d.
Proof.
  rewrite List.map_map. apply List.map_ext. intros x. unfold square. lia.
Qed.

Ltac swap_differences :=
  intros a b; cbv delta [manhattan_distance euclidean_squared_distance
                         chebyshev_distance euclidean_distance] beta;
  rewrite (differences_swap b a);
  destruct (differences b a) as [d|e]; simpl; trivial;
  now rewrite ?map_abs_opp, ?map_square_opp.

Lemma manhattan_distance_sym :
  forall a b, manhattan_distance a b = manhattan_distance b a.
Proof. swap_differences. Qed.

Lemma euclidean_squared_distance_sym :
  forall a b, euclidean_squared_distance a b = euclidean_squared_distance b a.
Proof. swap_differences. Qed.

Lemma chebyshev_distance_sym :
  forall a b, chebyshev_distance a b = chebyshev_distance b a.
Proof. swap_differences. Qed.

Lemma euclidean_distance_sym :
  forall a b, euclidean_distance a b = euclidean_distance b a.
Proof. swap_differences. Qed.

(** ** The dictionary of distance functions *)

Section FuncLookup.

Variables md ed esd cd : value -> value -> result Q.

Lemma func_named (name : string) (f : value -> value -> result Q) :
  In (name, f) (named_distances md ed esd cd) ->
  func md ed esd cd !! name = Some f.
Proof.
  unfold named_distances. simpl.
  intros [H|[H|[H|[H|[]]]]]; inversion H; subst; reflexivity.
Qed.

Lemma func_unnamed (name : string) :
  ~ In name distance_names -> func md ed esd cd !! name = None.
Proof.
  unfold distance_names. simpl. intros H. unfold func.
  rewrite !lookup_insert_ne by (intros <-; tauto).
  apply lookup_singleton_ne. intros <-. tauto.
Qed.

End FuncLookup.

(** ** neighbors_in_radius *)

Section InRadius.

Variables md ed esd cd : value -> value -> result Q.
Variable agent : AgentState.
Variable pos : value.
Hypothesis agent_pos : agent !! KStr "position" = Some pos.

Lemma in_radius_eval (max_radius min_radius : Q) (name : string)
    (f : value -> value -> result Q) (c : AgentState) (p : value) (d : Q) :
  func md ed esd cd !! name = Some f ->
  c !! KStr "position" = Some p ->
  f p pos = Ok d ->
  in_radius md ed esd cd agent max_radius min_radius name c
  = Ok (Qle_bool d max_radius && Qle_bool min_radius d).
Proof.
  intros Hf Hc Hd. unfold in_radius.
  rewrite (getitem_lookup _ _ _ agent_pos). simpl.
  rewrite Hf. simpl.
  rewrite (getitem_lookup _ _ _ Hc). simpl.
  rewrite Hd. reflexivity.
Qed.

Lemma in_radius_unknown (max_radius min_radius : Q) (name : string)
    (c : AgentState) :
  ~ In name distance_names ->
  in_radius md ed esd cd agent max_radius min_radius name c
  = Err (KeyError (KStr name)).
Proof.
  intros Hn. unfold in_radius.
  rewrite (getitem_lookup _ _ _ agent_pos). simpl.
  rewrite (func_unnamed _ _ _ _ _ Hn). reflexivity.
Qed.

Lemma neighbors_in_radius_ok (neighbors : list AgentState)
    (max_radius min_radius : Q) (name : string) (z_axis : bool) :
  truthy pos = true ->
  neighbors_in_radius md ed esd cd agent neighbors max_radius min_radius
    name z_axis
  = Ok (Filter (in_radius md ed esd cd agent max_radius min_radius name)
          neighbors).
Proof.
  intros Ht. unfold neighbors_in_radius, raise_unless.
  rewrite (getitem_lookup _ _ _ agent_pos). simpl. now rewrite Ht.
Qed.

End InRadius.

(** C4: for a reference agent with a position and candidates on which the
    selected distance is defined (the same in both argument orders),
    [neighbors_in_radius] yields exactly the candidates [c] with
    [min_radius <= dist(A.position, c.position) <= max_radius], in the order
    of the input, for each of the four named distance functions; a distance
    equal to either bound keeps the candidate. *)
Theorem neighbors_in_radius_exact
    (md ed esd cd : value -> value -> result Q)
    (agent : AgentState) (neighbors : list AgentState)
    (max_radius min_radius : Q) (name : string)
    (dist : value -> value -> result Q) (z_axis : bool) (pos : value) :
  agent !! KStr "position" = Some pos ->
  truthy pos = true ->
  In (name, dist) (named_distances md ed esd cd) ->
  (forall c, In c neighbors ->
     exists p d, c !! KStr "position" = Some p
                 /\ dist pos p = Ok d /\ dist p pos = Ok d) ->
  let kept :=
    List.filter (within_radius dist pos max_radius min_radius) neighbors in
  yields (neighbors_in_radius md ed esd cd agent neighbors
            max_radius min_radius name z_axis) kept
  /\ forall c p d,
       In c neighbors -> c !! KStr "position" = Some p -> dist pos p = Ok d ->
       (In c kept <-> (min_radius <= d /\ d <= max_radius)%Q)
       /\ ((d == max_radius)%Q -> (min_radius <= d)%Q -> In c kept)
       /\ ((d == min_radius)%Q -> (d <= max_radius)%Q -> In c kept).
Proof.
  intros Hpos Ht Hname Hwf kept.
  assert (Hin : forall c p d,
             In c neighbors -> c !! KStr "position" = Some p ->
             dist pos p = Ok d ->
             (In c kept <-> (min_radius <= d /\ d <= max_radius)%Q)).
  { intros c p d Hc Hp Hd. unfold kept. rewrite List.filter_In.
    unfold within_radius. rewrite Hp, Hd.
    rewrite Bool.andb_true_iff, !Qle_bool_iff. tauto. }
  split.
  - exists (Filter (in_radius md ed esd cd agent max_radius min_radius name)
              neighbors).
    split.
    + now apply neighbors_in_radius_ok with (pos := pos).
    + unfold to_list. simpl. apply drain_filter.
      intros c Hc. destruct (Hwf c Hc) as (p & d & Hp & Hd & Hd').
      rewrite (in_radius_eval md ed esd cd agent pos Hpos max_radius
                 min_radius name dist c p d (func_named _ _ _ _ _ _ Hname)
                 Hp Hd').
      unfold within_radius. rewrite Hp, Hd.
      now rewrite Bool.andb_comm.
  - intros c p d Hc Hp Hd. split; [now apply Hin with (p := p)|].
    split; intros Heq Hle; apply (Hin c p d Hc Hp Hd); split; trivial.
    + rewrite Heq. apply Qle_refl.
    + rewrite Heq. apply Qle_refl.
Qed.

(** C7: the [z_axis] flag has no effect: with [z_axis=True] the call returns
    what it returns with [z_axis=False], so the consumed results are the
    same elements in the same order (or the same exception). *)
Theorem neighbors_in_radius_z_axis_ignored
    (md ed esd cd : value -> value -> result Q)
    (agent : AgentState) (neighbors : list AgentState)
    (max_radius min_radius : Q) (name : string) :
  neighbors_in_radius md ed esd cd agent neighbors max_radius min_radius
    name true
  = neighbors_in_radius md ed esd cd agent neighbors max_radius min_radius
      name false
  /\ bind (neighbors_in_radius md ed esd cd agent neighbors max_radius
             min_radius name true) to_list
     = bind (neighbors_in_radius md ed esd cd agent neighbors max_radius
               min_radius name false) to_list.
Proof. split; reflexivity. Qed.

(** C8: for a reference agent with a position and a non-empty candidate
    sequence, a [distance_function] outside the four names makes the call
    return its iterator, and evaluating that iterator fails with the
    [KeyError] of the unknown name. *)
Theorem neighbors_in_radius_unknown_name
    (md ed esd cd : value -> value -> result Q)
    (agent : AgentState) (neighbors : list AgentState)
    (max_radius min_radius : Q) (name : string) (z_axis : bool)
    (pos : value) :
  agent !! KStr "position" = Some pos ->
  truthy pos = true ->
  neighbors <> [] ->
  ~ In name distance_names ->
  raises_when_evaluated
    (neighbors_in_radius md ed esd cd agent neighbors max_radius min_radius
       name z_axis)
    (KeyError (KStr name)).
Proof.
  intros Hpos Ht Hne Hname.
  destruct neighbors as [|c rest]; [congruence|].
  eexists. split; [now apply neighbors_in_radius_ok with (pos := pos)|].
  pose proof (in_radius_unknown md ed esd cd agent pos Hpos max_radius
                min_radius name c Hname) as Hc.
  split.
  - now apply next_raises_first.
  - unfold to_list. simpl fpred. simpl fitems. now apply drain_raises_first.
Qed.

(** ** The guards of the four filters *)

Section Guards.

Variable agent : AgentState.
Variable neighbors : list AgentState.

Lemma neighbors_on_position_ok (pos : value) :
  agent !! KStr "position" = Some pos -> truthy pos = true ->
  neighbors_on_position agent neighbors
  = Ok (Filter (on_position agent) neighbors).
Proof.
  intros Hp Ht. unfold neighbors_on_position, raise_unless.
  rewrite (getitem_lookup _ _ _ Hp). simpl. now rewrite Ht.
Qed.

Lemma neighbors_in_front_ok (pos dir : value) (colinear : bool) :
  agent !! KStr "position" = Some pos -> truthy pos = true ->
  agent !! KStr "direction" = Some dir -> truthy dir = true ->
  neighbors_in_front agent neighbors colinear
  = Ok (Filter (if colinear then fun n => is_linear agent n true
                else fun n => in_front_planar agent n) neighbors).
Proof.
  intros Hp Ht Hd Htd. unfold neighbors_in_front, raise_unless.
  rewrite (getitem_lookup _ _ _ Hp). simpl. rewrite Ht. simpl.
  rewrite (getitem_lookup _ _ _ Hd). simpl. rewrite Htd. simpl.
  now destruct colinear.
Qed.

Lemma neighbors_behind_ok (pos dir : value) (colinear : bool) :
  agent !! KStr "position" = Some pos -> truthy pos = true ->
  agent !! KStr "direction" = Some dir -> truthy dir = true ->
  neighbors_behind agent neighbors colinear
  = Ok (Filter (if colinear then fun n => is_linear agent n false
                else fun n => do b <- in_front_planar agent n;
                              Ok (negb b)) neighbors).
Proof.
  intros Hp Ht Hd Htd. unfold neighbors_behind, raise_unless.
  rewrite (getitem_lookup _ _ _ Hp). simpl. rewrite Ht. simpl.
  rewrite (getitem_lookup _ _ _ Hd). simpl. rewrite Htd. simpl.
  now destruct colinear.
Qed.

(** A falsy position stops each of the four functions at its first
    guard. *)
Lemma position_guard (md ed esd cd : value -> value -> result Q)
    (max_radius min_radius : Q) (name : string) (z_axis colinear : bool) :
  falsy_field agent "position" ->
  neighbors_on_position agent neighbors = Err pos_error
  /\ neighbors_in_radius md ed esd cd agent neighbors max_radius min_radius
       name z_axis = Err pos_error
  /\ neighbors_in_front agent neighbors colinear = Err pos_error
  /\ neighbors_behind agent neighbors colinear = Err pos_error.
Proof.
  intros (v & Hv & Hf).
  unfold neighbors_on_position, neighbors_in_radius, neighbors_in_front,
    neighbors_behind, raise_unless.
  rewrite (getitem_lookup _ _ _ Hv). simpl. rewrite Hf. simpl. tauto.
Qed.

(** Past the position guard, a falsy direction stops the two orientation
    filters at their second guard. *)
Lemma direction_guard (colinear : bool) :
  truthy_field agent "position" ->
  falsy_field agent "direction" ->
  neighbors_in_front agent neighbors colinear = Err dir_error
  /\ neighbors_behind agent neighbors colinear = Err dir_error.
Proof.
  intros (p & Hp & Ht) (v & Hv & Hf).
  unfold neighbors_in_front, neighbors_behind, raise_unless.
  rewrite (getitem_lookup _ _ _ Hp). simpl. rewrite Ht. simpl.
  rewrite (getitem_lookup _ _ _ Hv). simpl. rewrite Hf. simpl. tauto.
Qed.

End Guards.

(** C9: with a reference agent that passes the guards of the function called
    (a truthy position, and a truthy direction for the two orientation
    filters) and an empty candidate sequence, each of the four filters
    returns an iterator whose consumption gives the empty sequence; no
    exception is raised, whatever the other parameters are. *)
Theorem empty_candidates_yield_empty
    (md ed esd cd : value -> value -> result Q) (agent : AgentState)
    (max_radius min_radius : Q) (name : string) (z_axis colinear : bool) :
  truthy_field agent "position" ->
  yields (neighbors_on_position agent []) []
  /\ yields (neighbors_in_radius md ed esd cd agent [] max_radius min_radius
               name z_axis) []
  /\ (truthy_field agent "direction" ->
      yields (neighbors_in_front agent [] colinear) []
      /\ yields (neighbors_behind agent [] colinear) []).
Proof.
  intros (pos & Hp & Ht). split; [|split].
  - eexists. split; [now apply neighbors_on_position_ok with (pos := pos)|].
    reflexivity.
  - eexists. split; [now apply neighbors_in_radius_ok with (pos := pos)|].
    reflexivity.
  - intros (dir & Hd & Htd). split.
    + eexists. split.
      * now apply neighbors_in_front_ok with (pos := pos) (dir := dir).
      * reflexivity.
    + eexists. split.
      * now apply neighbors_behind_ok with (pos := pos) (dir := dir).
      * reflexivity.
Qed.

(** C6 (as amended): for every candidate sequence and every choice of the
    other parameters, a reference agent whose position is falsy makes each
    of the four filters raise the position error at the call, before an
    iterator exists; a reference agent whose position is truthy and whose
    direction is falsy makes [neighbors_in_front] and [neighbors_behind]
    raise the direction error at the call. *)
Theorem guards_raise_at_call
    (md ed esd cd : value -> value -> result Q) (agent : AgentState)
    (neighbors : list AgentState) (max_radius min_radius : Q)
    (name : string) (z_axis colinear : bool) :
  (falsy_field agent "position" ->
   neighbors_on_position agent neighbors = Err pos_error
   /\ neighbors_in_radius md ed esd cd agent neighbors max_radius min_radius
        name z_axis = Err pos_error
   /\ neighbors_in_front agent neighbors colinear = Err pos_error
   /\ neighbors_behind agent neighbors colinear = Err pos_error)
  /\ (truthy_field agent "position" ->
      falsy_field agent "direction" ->
      neighbors_in_front agent neighbors colinear = Err dir_error
      /\ neighbors_behind agent neighbors colinear = Err dir_error).
Proof.
  split.
  - apply position_guard.
  - apply direction_guard.
Qed.

(** C6 as stated fails: an agent with neither a position nor a direction has
    a falsy direction, yet both orientation filters raise the position
    error, since the position is tested first. *)
Lemma direction_guard_after_position_guard :
  falsy_field (mk_agent VNone VNone) "direction"
  /\ neighbors_in_front (mk_agent VNone VNone) [] false = Err pos_error
  /\ neighbors_behind (mk_agent VNone VNone) [] false = Err pos_error
  /\ neighbors_in_front (mk_agent VNone VNone) [] false <> Err dir_error
  /\ neighbors_behind (mk_agent VNone VNone) [] false <> Err dir_error.
Proof.
  split.
  - exists VNone. split; reflexivity.
  - assert (Hf : neighbors_in_front (mk_agent VNone VNone) [] false
                 = Err pos_error) by reflexivity.
    assert (Hb : neighbors_behind (mk_agent VNone VNone) [] false
                 = Err pos_error) by reflexivity.
    rewrite Hf, Hb. repeat split; congruence.
Qed.

(** ** The planar test *)

Lemma vec3_truthy (m : AgentState) (field : string) (v : Z * Z * Z) :
  vec3 m field v -> truthy_field m field.
Proof.
  destruct v as [[x y] z]. intros H. exists (VList [x; y; z]). now split.
Qed.

Lemma in_front_planar_eval (agent neighbor : AgentState)
    (p a n : Z * Z * Z) :
  vec3 agent "position" p -> vec3 agent "direction" a ->
  vec3 neighbor "position" n ->
  in_front_planar agent neighbor = Ok (0 <? dot3 a (sub3 n p)).
Proof.
  destruct p as [[px py] pz], a as [[ax ay] az], n as [[nx ny] nz].
  unfold vec3. intros Hp Ha Hn. unfold in_front_planar.
  rewrite (getitem_lookup _ _ _ Hp), (getitem_lookup _ _ _ Hn),
    (getitem_lookup _ _ _ Ha).
  simpl. now rewrite Z.gtb_ltb.
Qed.

(** C5: with three-component positions and direction, [in_front_planar]
    returns true exactly when [D = direction . (neighbor.position -
    agent.position)] is strictly positive; [D = 0] gives false. *)
Theorem in_front_planar_iff (agent neighbor : AgentState)
    (p a n : Z * Z * Z) :
  vec3 agent "position" p -> vec3 agent "direction" a ->
  vec3 neighbor "position" n ->
  let D := dot3 a (sub3 n p) in
  exists b, in_front_planar agent neighbor = Ok b
            /\ (b = true <-> 0 < D) /\ (D = 0 -> b = false).
Proof.
  intros Hp Ha Hn D. exists (0 <? D). split; [|split].
  - now apply in_front_planar_eval.
  - apply Z.ltb_lt.
  - intros ->. reflexivity.
Qed.

(** ** Planar mode *)

Lemma position3_vec3 (c : AgentState) (n : Z * Z * Z) :
  vec3 c "position" n -> position3 c = Some n.
Proof.
  destruct n as [[x y] z]. unfold vec3, position3. now intros ->.
Qed.

Lemma filter_sublist {A : Type} (q : A -> bool) (l : list A) :
  sublist (List.filter q l) l.
Proof.
  induction l as [|x l IH]; simpl.
  - constructor.
  - destruct (q x); now constructor.
Qed.

Lemma filter_split_Permutation {A : Type} (q : A -> bool) (l : list A) :
  Permutation (List.filter q l ++ List.filter (fun x => negb (q x)) l) l.
Proof.
  induction l as [|x l IH]; simpl.
  - constructor.
  - destruct (q x); simpl.
    + now constructor.
    + eapply Permutation_trans; [|apply perm_skip, IH].
      symmetry. apply Permutation_middle.
Qed.

Lemma filter_split_exclusive {A : Type} (q : A -> bool) (l : list A) (x : A) :
  In x l ->
  (In x (List.filter q l) /\ ~ In x (List.filter (fun y => negb (q y)) l))
  \/ (In x (List.filter (fun y => negb (q y)) l) /\ ~ In x (List.filter q l)).
Proof.
  intros Hx. rewrite !List.filter_In.
  destruct (q x) eqn:E; simpl; [left|right]; intuition congruence.
Qed.

(** C10: in planar mode, for an agent and candidates with three-component
    vectors, [neighbors_in_front] keeps the candidates with [D > 0] and
    [neighbors_behind] keeps the others, the exact complement: every
    candidate is in exactly one of the two results, a perpendicular
    candidate ([D = 0]) is behind, and both results keep the order of the
    input. *)
Theorem planar_front_behind_partition (agent : AgentState)
    (neighbors : list AgentState) (p a : Z * Z * Z) :
  vec3 agent "position" p -> vec3 agent "direction" a ->
  (forall c, In c neighbors -> exists n, vec3 c "position" n) ->
  let front := List.filter (ahead a p) neighbors in
  let behind := List.filter (fun c => negb (ahead a p c)) neighbors in
  yields (neighbors_in_front agent neighbors false) front
  /\ yields (neighbors_behind agent neighbors false) behind
  /\ (forall c, In c neighbors ->
        (In c front /\ ~ In c behind) \/ (In c behind /\ ~ In c front))
  /\ (forall c, In c neighbors -> planar_dot a p c = Some 0 -> In c behind)
  /\ sublist front neighbors /\ sublist behind neighbors
  /\ Permutation (front ++ behind) neighbors.
Proof.
  intros Hp Ha Hwf front behind.
  destruct (vec3_truthy _ _ _ Hp) as (pos & Hpos & Htp).
  destruct (vec3_truthy _ _ _ Ha) as (dir & Hdir & Htd).
  assert (Heval : forall c, In c neighbors ->
                    in_front_planar agent c = Ok (ahead a p c)).
  { intros c Hc. destruct (Hwf c Hc) as [n Hn].
    rewrite (in_front_planar_eval agent c p a n Hp Ha Hn).
    unfold ahead, planar_dot. now rewrite (position3_vec3 c n Hn). }
  split; [|split; [|split; [|split; [|split; [|split]]]]].
  - eexists. split.
    + now apply neighbors_in_front_ok with (pos := pos) (dir := dir).
    + unfold to_list. simpl. now apply drain_filter.
  - eexists. split.
    + now apply neighbors_behind_ok with (pos := pos) (dir := dir).
    + unfold to_list. simpl. apply drain_filter.
      intros c Hc. now rewrite (Heval c Hc).
  - intros c Hc. now apply filter_split_exclusive.
  - intros c Hc HD. unfold behind. rewrite List.filter_In. split; [exact Hc|].
    unfold ahead. now rewrite HD.
  - apply filter_sublist.
  - apply filter_sublist.
  - apply filter_split_Permutation.
Qed.

(** ** Colinear mode *)

(** What the [reduce] of [is_linear] computes on three numbers: the first
    step gives [c0 == 0 and c1 == 0] as a bool, and the second step negates
    the disjunction of that bool with [c2]. *)
Lemma all_zero_reduce (c0 c1 c2 : Z) :
  reduce (fun a b => VBool (negb (truthy (py_or a b))))
    [VNum c0; VNum c1; VNum c2]
  = Ok (VBool (negb ((c0 =? 0) && (c1 =? 0)) && (c2 =? 0))).
Proof.
  unfold reduce, py_or. cbn [fold_left truthy].
  destruct (c0 =? 0) eqn:E0; cbn [negb truthy]; rewrite ?E0;
    destruct (c1 =? 0) eqn:E1; cbn [negb truthy andb]; rewrite ?E1;
    destruct (c2 =? 0) eqn:E2; cbn [negb truthy andb]; rewrite ?E2;
    reflexivity.
Qed.

Lemma same_dir_flag (dx dy dz ax ay az : Z) :
  ((dx >? 0) && (ax >? 0)) || ((dy >? 0) && (ay >? 0))
  || ((dz >? 0) && (az >? 0))
  = same_direction (dx, dy, dz) (ax, ay, az).
Proof. unfold same_direction. now rewrite !Z.gtb_ltb. Qed.

(** The value of [is_linear] on three-component vectors, in terms of the
    list [cross_product] of the source. *)
Lemma is_linear_eval (agent neighbor : AgentState) (front : bool)
    (p a n : Z * Z * Z) :
  vec3 agent "position" p -> vec3 agent "direction" a ->
  vec3 neighbor "position" n ->
  let '(dx, dy, dz) := sub3 n p in
  let '(ax, ay, az) := a in
  is_linear agent neighbor front
  = Ok (if negb ((dy * az - dz * ay =? 0) && (dx * az - dz * ax =? 0))
           && (dx * ay - dy * ax =? 0)
        then Bool.eqb (same_direction (dx, dy, dz) a) front
        else false).
Proof.
  destruct p as [[px py] pz], a as [[ax ay] az], n as [[nx ny] nz].
  unfold vec3. intros Hp Ha Hn. unfold is_linear, sub3.
  rewrite (getitem_lookup _ _ _ Hp), (getitem_lookup _ _ _ Hn),
    (getitem_lookup _ _ _ Ha).
  cbn [bind displacement comprehension seq index nth_error unpack3].
  rewrite all_zero_reduce. cbn [bind truthy]. rewrite same_dir_flag.
  now destruct (negb _ && _).
Qed.

(** A candidate on the facing axis (zero cross product) is rejected by
    [is_linear] whatever [front] is. *)
Lemma is_linear_on_axis (agent neighbor : AgentState) (front : bool)
    (p a n : Z * Z * Z) :
  vec3 agent "position" p -> vec3 agent "direction" a ->
  vec3 neighbor "position" n ->
  cross3 (sub3 n p) a = (0, 0, 0) ->
  is_linear agent neighbor front = Ok false.
Proof.
  intros Hp Ha Hn Hc.
  pose proof (is_linear_eval agent neighbor front p a n Hp Ha Hn) as H.
  destruct p as [[px py] pz], a as [[ax ay] az], n as [[nx ny] nz].
  simpl in H, Hc. rewrite H. injection Hc as H0 H1 H2.
  replace ((ny - py) * az - (nz - pz) * ay =? 0) with true
    by (symmetry; apply Z.eqb_eq; lia).
  replace ((nx - px) * az - (nz - pz) * ax =? 0) with true
    by (symmetry; apply Z.eqb_eq; lia).
  reflexivity.
Qed.

(** C2: the code at two inputs.  A candidate straight ahead (zero cross
    product, same-direction flag true) asked with [front=True] is rejected;
    a candidate off the axis (cross product [(1, 0, 0)]) is accepted.  The
    claim gives true and false. *)
Theorem is_linear_misjudges_zero_cross_product :
  (cross3 (sub3 (2, 0, 0) (0, 0, 0)) (1, 0, 0) = (0, 0, 0)
   /\ same_direction (sub3 (2, 0, 0) (0, 0, 0)) (1, 0, 0) = true
   /\ is_linear ex_agent (at_position [2; 0; 0]) true = Ok false)
  /\ (cross3 (sub3 (0, 1, 1) (0, 0, 0)) (0, 0, 1) = (1, 0, 0)
      /\ is_linear (mk_agent (VList [0; 0; 0]) (VList [0; 0; 1]))
           (at_position [0; 1; 1]) true = Ok true).
Proof. repeat split; reflexivity. Qed.

(** C3: the code in colinear mode.  With the agent at the origin facing
    [(1, 0, 0)], the candidate ahead on the axis is missing from
    [neighbors_in_front] and the candidate behind on the axis is missing
    from [neighbors_behind]; with the agent facing [(0, 0, 1)], the off-axis
    candidate at [(0, 1, 1)] is returned by [neighbors_in_front]. *)
Theorem colinear_mode_drops_axis_candidates :
  yields (neighbors_in_front ex_agent
            [at_position [2; 0; 0]; at_position [-2; 0; 0]] true) []
  /\ yields (neighbors_behind ex_agent
               [at_position [2; 0; 0]; at_position [-2; 0; 0]] true) []
  /\ yields (neighbors_in_front
               (mk_agent (VList [0; 0; 0]) (VList [0; 0; 1]))
               [at_position [0; 1; 1]] true) [at_position [0; 1; 1]].
Proof. repeat split; eexists; split; reflexivity. Qed.

(** ** neighbors_on_position *)

(** The predicate subscripts the candidate mapping with the integer index,
    so a candidate without the key [0] raises [KeyError]. *)
Lemma on_position_subscripts_candidate (agent neighbor : AgentState)
    (x : Z) (xs : list Z) :
  agent !! KStr "position" = Some (VList (x :: xs)) ->
  neighbor !! KInt 0 = None ->
  on_position agent neighbor = Err (KeyError (KInt 0)).
Proof.
  intros Hp Hn. unfold on_position.
  rewrite (getitem_lookup _ _ _ Hp).
  cbn [bind py_len length seq comprehension index nth_error Z.of_nat].
  change (Z.of_nat 0) with 0.
  now rewrite (getitem_absent _ _ Hn).
Qed.

(** C1: the code at an agent at [(1, 2)] and one candidate at the same
    position.  The call returns its iterator, and evaluating it raises
    [KeyError(0)]: the candidate is not returned. *)
Theorem neighbors_on_position_raises_key_error :
  raises_when_evaluated
    (neighbors_on_position (at_position [1; 2]) [at_position [1; 2]])
    (KeyError (KInt 0)).
Proof. eexists. repeat split; reflexivity. Qed.

(** ** The theorems at concrete inputs *)

(** A 3-4-5 triangle: the candidate at distance 5 sits on [max_radius], the
    candidate on the agent sits on [min_radius], and both are kept; the
    candidate at distance 10 is dropped. *)
Lemma neighbors_in_radius_exact_witness :
  yields
    (neighbors_in_radius manhattan_distance euclidean_distance
       euclidean_squared_distance chebyshev_distance ex_agent
       [at_position [3; 4; 0]; at_position [0; 0; 0]; at_position [6; 8; 0]]
       (inject_Z 5) (inject_Z 0) "euclidean" false)
    [at_position [3; 4; 0]; at_position [0; 0; 0]].
Proof.
  refine (proj1 (neighbors_in_radius_exact manhattan_distance
                   euclidean_distance euclidean_squared_distance
                   chebyshev_distance ex_agent
                   [at_position [3; 4; 0]; at_position [0; 0; 0];
                    at_position [6; 8; 0]]
                   (inject_Z 5) (inject_Z 0) "euclidean" euclidean_distance
                   false (VList [0; 0; 0]) _ _ _ _)).
  - reflexivity.
  - reflexivity.
  - right. left. reflexivity.
  - intros c [<-|[<-|[<-|[]]]].
    + exists (VList [3; 4; 0]), (inject_Z 5). repeat split; reflexivity.
    + exists (VList [0; 0; 0]), (inject_Z 0). repeat split; reflexivity.
    + exists (VList [6; 8; 0]), (inject_Z 10). repeat split; reflexivity.
Defined.

Lemma in_front_planar_iff_witness :
  exists b, in_front_planar ex_agent (at_position [0; 2; 0]) = Ok b
            /\ (b = true <-> 0 < 0) /\ (0 = 0 -> b = false).
Proof.
  apply (in_front_planar_iff ex_agent (at_position [0; 2; 0])
           (0, 0, 0) (1, 0, 0) (0, 2, 0)); reflexivity.
Defined.

Lemma guards_raise_at_call_witness :
  (neighbors_on_position (at_position []) [ex_agent] = Err pos_error
   /\ neighbors_in_radius manhattan_distance euclidean_distance
        euclidean_squared_distance chebyshev_distance (at_position [])
        [ex_agent] (inject_Z 1) (inject_Z 0) "euclidean" false
      = Err pos_error
   /\ neighbors_in_front (at_position []) [ex_agent] true = Err pos_error
   /\ neighbors_behind (at_position []) [ex_agent] true = Err pos_error)
  /\ (neighbors_in_front (mk_agent (VList [0; 0; 0]) VNone) [ex_agent] true
      = Err dir_error
      /\ neighbors_behind (mk_agent (VList [0; 0; 0]) VNone) [ex_agent] true
         = Err dir_error).
Proof.
  split.
  - apply (proj1 (guards_raise_at_call manhattan_distance euclidean_distance
                    euclidean_squared_distance chebyshev_distance
                    (at_position []) [ex_agent] (inject_Z 1) (inject_Z 0)
                    "euclidean" false true)).
    exists (VList []). split; reflexivity.
  - apply (proj2 (guards_raise_at_call manhattan_distance euclidean_distance
                    euclidean_squared_distance chebyshev_distance
                    (mk_agent (VList [0; 0; 0]) VNone) [ex_agent]
                    (inject_Z 1) (inject_Z 0) "euclidean" false true)).
    + exists (VList [0; 0; 0]). split; reflexivity.
    + exists VNone. split; reflexivity.
Defined.

Lemma neighbors_in_radius_unknown_name_witness :
  raises_when_evaluated
    (neighbors_in_radius manhattan_distance euclidean_distance
       euclidean_squared_distance chebyshev_distance ex_agent
       [at_position [1; 0; 0]] (inject_Z 1) (inject_Z 0) "minkowski" false)
    (KeyError (KStr "minkowski")).
Proof.
  apply (neighbors_in_radius_unknown_name manhattan_distance
           euclidean_distance euclidean_squared_distance chebyshev_distance
           ex_agent [at_position [1; 0; 0]] (inject_Z 1) (inject_Z 0)
           "minkowski" false (VList [0; 0; 0])).
  - reflexivity.
  - reflexivity.
  - discriminate.
  - unfold distance_names. simpl. intros [H|[H|[H|[H|[]]]]]; discriminate H.
Defined.

Lemma empty_candidates_yield_empty_witness :
  yields (neighbors_on_position ex_agent []) []
  /\ yields (neighbors_in_radius manhattan_distance euclidean_distance
               euclidean_squared_distance chebyshev_distance ex_agent []
               (inject_Z 1) (inject_Z 0) "minkowski" true) []
  /\ yields (neighbors_in_front ex_agent [] true) []
  /\ yields (neighbors_behind ex_agent [] true) [].
Proof.
  assert (Hp : truthy_field ex_agent "position")
    by (exists (VList [0; 0; 0]); split; reflexivity).
  assert (Hd : truthy_field ex_agent "direction")
    by (exists (VList [1; 0; 0]); split; reflexivity).
  destruct (empty_candidates_yield_empty manhattan_distance
              euclidean_distance euclidean_squared_distance
              chebyshev_distance ex_agent (inject_Z 1) (inject_Z 0)
              "minkowski" true true Hp) as (H1 & H2 & H3).
  destruct (H3 Hd) as [H4 H5].
  exact (conj H1 (conj H2 (conj H4 H5))).
Defined.

(** The scenario of the spec: candidates ahead, behind and perpendicular. *)
Lemma planar_front_behind_partition_witness :
  yields (neighbors_in_front ex_agent
            [at_position [2; 0; 0]; at_position [-2; 0; 0];
             at_position [0; 2; 0]] false)
    [at_position [2; 0; 0]]
  /\ yields (neighbors_behind ex_agent
               [at_position [2; 0; 0]; at_position [-2; 0; 0];
                at_position [0; 2; 0]] false)
       [at_position [-2; 0; 0]; at_position [0; 2; 0]].
Proof.
  destruct (planar_front_behind_partition ex_agent
              [at_position [2; 0; 0]; at_position [-2; 0; 0];
               at_position [0; 2; 0]] (0, 0, 0) (1, 0, 0))
    as (Hf & Hb & _).
  - reflexivity.
  - reflexivity.
  - intros c [<-|[<-|[<-|[]]]].
    + exists (2, 0, 0). reflexivity.
    + exists (-2, 0, 0). reflexivity.
    + exists (0, 2, 0). reflexivity.
  - split; [exact Hf | exact Hb].
Defined.

(** * Further properties of the filters *)

(** ** Consumed iterators in general *)

(** A consumption that succeeds ran the predicate on every item without an
    exception and kept exactly the accepted items. *)
Lemma drain_inv (p : AgentState -> result bool) (items kept : list AgentState) :
  drain p items = Ok kept ->
  (forall x, In x items -> p x = Ok (accepts p x))
  /\ kept = List.filter (accepts p) items.
Proof.
  revert kept. induction items as [|x items IH]; intros kept; simpl.
  - intros [= <-]. split; [intros x []|reflexivity].
  - destruct (p x) as [b|e] eqn:Hx; simpl; [|discriminate].
    destruct (drain p items) as [xs|e] eqn:Hd; simpl; [|discriminate].
    intros [= <-]. destruct (IH xs eq_refl) as [Hall Hxs]. split.
    + intros y [<-|Hy]; [|now apply Hall]. unfold accepts. now rewrite Hx.
    + simpl. replace (accepts p x) with b by (unfold accepts; now rewrite Hx).
      now rewrite <- Hxs.
Qed.

(** Items before the one that raises do not hide its exception. *)
Lemma drain_raises_at (p : AgentState -> result bool)
    (pre post : list AgentState) (c : AgentState) (e : exn) :
  (forall x, In x pre -> exists b, p x = Ok b) ->
  p c = Err e ->
  drain p (pre ++ c :: post) = Err e.
Proof.
  intros Hpre Hc. induction pre as [|x pre IH]; simpl.
  - now rewrite Hc.
  - destruct (Hpre x (or_introl eq_refl)) as [b ->]. simpl.
    rewrite IH by (intros y Hy; apply Hpre; now right). reflexivity.
Qed.

Lemma filter_filter_swap {A : Type} (q r : A -> bool) (l : list A) :
  List.filter q (List.filter r l) = List.filter r (List.filter q l).
Proof.
  induction l as [|x l IH]; simpl; trivial.
  destruct (r x) eqn:Hr, (q x) eqn:Hq; simpl; rewrite ?Hr, ?Hq, IH; trivial.
Qed.

Lemma filter_same_twice {A : Type} (q : A -> bool) (l : list A) :
  List.filter q (List.filter q l) = List.filter q l.
Proof.
  induction l as [|x l IH]; simpl; trivial.
  destruct (q x) eqn:Hq; simpl; rewrite ?Hq, IH; trivial.
Qed.

Lemma filter_sublist_weaker {A : Type} (q r : A -> bool) (l : list A) :
  (forall x, In x l -> q x = true -> r x = true) ->
  sublist (List.filter q l) (List.filter r l).
Proof.
  induction l as [|x l IH]; intros H; simpl.
  - constructor.
  - assert (IH' : sublist (List.filter q l) (List.filter r l))
      by (apply IH; intros y Hy; apply H; now right).
    destruct (q x) eqn:Hq.
    + rewrite (H x (or_introl eq_refl) Hq). now constructor.
    + destruct (r x); [now constructor|exact IH'].
Qed.

(** ** The shape of what the four functions return *)

Ltac open_call :=
  intros neighbors it;
  cbv delta [neighbors_on_position neighbors_in_radius neighbors_in_front
             neighbors_behind raise_unless] beta;
  repeat match goal with
    | |- context [getitem ?m ?k] => destruct (getitem m k); simpl
    | |- context [truthy ?v] => destruct (truthy v); simpl
    | |- context [if ?b then Ok _ else Ok _] => destruct b
    end;
  first [ discriminate
        | intros [= <-]; (split; [reflexivity|intros others; reflexivity]) ].

Lemma neighbors_on_position_shape (agent : AgentState) :
  same_predicate (neighbors_on_position agent).
Proof. open_call. Qed.

Lemma neighbors_in_radius_shape (md ed esd cd : value -> value -> result Q)
    (agent : AgentState) (max_radius min_radius : Q) (name : string)
    (z_axis : bool) :
  same_predicate
    (fun neighbors =>
       neighbors_in_radius md ed esd cd agent neighbors max_radius min_radius
         name z_axis).
Proof. open_call. Qed.

Lemma neighbors_in_front_shape (agent : AgentState) (colinear : bool) :
  same_predicate (fun neighbors => neighbors_in_front agent neighbors colinear).
Proof. open_call. Qed.

Lemma neighbors_behind_shape (agent : AgentState) (colinear : bool) :
  same_predicate (fun neighbors => neighbors_behind agent neighbors colinear).
Proof. open_call. Qed.

Section AnyFilter.

Variable call : list AgentState -> result filter_obj.
Hypothesis call_shape : same_predicate call.

Lemma yields_sublist (neighbors kept : list AgentState) :
  yields (call neighbors) kept -> sublist kept neighbors.
Proof.
  intros (it & Hcall & Hlist).
  destruct (call_shape _ _ Hcall) as [Hitems _].
  unfold to_list in Hlist. rewrite Hitems in Hlist.
  destruct (drain_inv _ _ _ Hlist) as [_ ->]. apply filter_sublist.
Qed.

Lemma yields_again (neighbors kept : list AgentState) :
  yields (call neighbors) kept -> yields (call kept) kept.
Proof.
  intros (it & Hcall & Hlist).
  destruct (call_shape _ _ Hcall) as [Hitems Hothers].
  unfold to_list in Hlist. rewrite Hitems in Hlist.
  destruct (drain_inv _ _ _ Hlist) as [Hall Hkept].
  exists (Filter (fpred it) kept). split; [apply Hothers|].
  unfold to_list. simpl.
  rewrite (drain_filter (fpred it) (accepts (fpred it)) kept).
  - rewrite Hkept at 1. rewrite filter_same_twice. now rewrite Hkept.
  - intros x Hx. apply Hall. rewrite Hkept in Hx.
    now apply List.filter_In in Hx.
Qed.

End AnyFilter.

Section TwoFilters.

Variables first second : list AgentState -> result filter_obj.
Hypothesis first_shape : same_predicate first.
Hypothesis second_shape : same_predicate second.

(** Where both filters succeed on the whole sequence, each succeeds on the
    other's result and the two chains end in the same sequence. *)
Lemma chain_commutes (neighbors kept1 kept2 : list AgentState) :
  yields (first neighbors) kept1 ->
  yields (second neighbors) kept2 ->
  exists kept,
    yields (second kept1) kept /\ yields (first kept2) kept.
Proof.
  intros (it1 & Hc1 & Hl1) (it2 & Hc2 & Hl2).
  destruct (first_shape _ _ Hc1) as [Hi1 Ho1].
  destruct (second_shape _ _ Hc2) as [Hi2 Ho2].
  unfold to_list in Hl1, Hl2. rewrite Hi1 in Hl1. rewrite Hi2 in Hl2.
  destruct (drain_inv _ _ _ Hl1) as [Hall1 ->].
  destruct (drain_inv _ _ _ Hl2) as [Hall2 ->].
  exists (List.filter (accepts (fpred it2))
            (List.filter (accepts (fpred it1)) neighbors)).
  split.
  - eexists. split; [apply Ho2|]. unfold to_list. simpl.
    apply drain_filter. intros x Hx. apply Hall2.
    now apply List.filter_In in Hx.
  - eexists. split; [apply Ho1|]. unfold to_list. simpl.
    rewrite filter_filter_swap.
    apply drain_filter. intros x Hx. apply Hall1.
    now apply List.filter_In in Hx.
Qed.

End TwoFilters.

(** X1: whatever the agent, the candidates and the parameters, a result of
    any of the four filters that is consumed without an exception is a
    subsequence of the candidates: nothing is added, repeated or
    reordered. *)
Theorem filters_return_subsequence
    (md ed esd cd : value -> value -> result Q) (agent : AgentState)
    (neighbors : list AgentState) (max_radius min_radius : Q)
    (name : string) (z_axis colinear : bool) (kept : list AgentState) :
  yields (neighbors_on_position agent neighbors) kept
  \/ yields (neighbors_in_radius md ed esd cd agent neighbors max_radius
               min_radius name z_axis) kept
  \/ yields (neighbors_in_front agent neighbors colinear) kept
  \/ yields (neighbors_behind agent neighbors colinear) kept ->
  sublist kept neighbors.
Proof.
  intros [H|[H|[H|H]]].
  - exact (yields_sublist _ (neighbors_on_position_shape agent) _ _ H).
  - exact (yields_sublist _
             (neighbors_in_radius_shape md ed esd cd agent max_radius
                min_radius name z_axis) _ _ H).
  - exact (yields_sublist _ (neighbors_in_front_shape agent colinear) _ _ H).
  - exact (yields_sublist _ (neighbors_behind_shape agent colinear) _ _ H).
Qed.

(** X2: each filter is idempotent: given its own consumed result as the
    candidate sequence, with the same agent and parameters, it returns that
    sequence unchanged. *)
Theorem filters_are_idempotent
    (md ed esd cd : value -> value -> result Q) (agent : AgentState)
    (neighbors : list AgentState) (max_radius min_radius : Q)
    (name : string) (z_axis colinear : bool) (kept : list AgentState) :
  (yields (neighbors_on_position agent neighbors) kept ->
   yields (neighbors_on_position agent kept) kept)
  /\ (yields (neighbors_in_radius md ed esd cd agent neighbors max_radius
                min_radius name z_axis) kept ->
      yields (neighbors_in_radius md ed esd cd agent kept max_radius
                min_radius name z_axis) kept)
  /\ (yields (neighbors_in_front agent neighbors colinear) kept ->
      yields (neighbors_in_front agent kept colinear) kept)
  /\ (yields (neighbors_behind agent neighbors colinear) kept ->
      yields (neighbors_behind agent kept colinear) kept).
Proof.
  repeat split; intros H.
  - exact (yields_again _ (neighbors_on_position_shape agent) _ _ H).
  - exact (yields_again _
             (neighbors_in_radius_shape md ed esd cd agent max_radius
                min_radius name z_axis) _ _ H).
  - exact (yields_again _ (neighbors_in_front_shape agent colinear) _ _ H).
  - exact (yields_again _ (neighbors_behind_shape agent colinear) _ _ H).
Qed.

(** The orientation filter chosen by a flag. *)
Lemma orientation_shape (agent : AgentState) (behind colinear : bool) :
  same_predicate
    (fun neighbors =>
       if behind then neighbors_behind agent neighbors colinear
       else neighbors_in_front agent neighbors colinear).
Proof.
  destruct behind.
  - apply neighbors_behind_shape.
  - apply neighbors_in_front_shape.
Qed.

(** X3: the radius filter and an orientation filter commute: where both
    succeed on the whole candidate sequence, filtering by radius and then by
    orientation gives the same sequence as filtering by orientation and then
    by radius. *)
Theorem radius_and_orientation_commute
    (md ed esd cd : value -> value -> result Q) (agent : AgentState)
    (neighbors : list AgentState) (max_radius min_radius : Q)
    (name : string) (z_axis behind colinear : bool)
    (near facing : list AgentState) :
  let orientation := fun candidates =>
    if behind then neighbors_behind agent candidates colinear
    else neighbors_in_front agent candidates colinear in
  let radius := fun candidates =>
    neighbors_in_radius md ed esd cd agent candidates max_radius min_radius
      name z_axis in
  yields (radius neighbors) near ->
  yields (orientation neighbors) facing ->
  exists kept,
    yields (orientation near) kept /\ yields (radius facing) kept.
Proof.
  intros orientation radius Hr Ho.
  exact (chain_commutes radius orientation
           (neighbors_in_radius_shape md ed esd cd agent max_radius
              min_radius name z_axis)
           (orientation_shape agent behind colinear) neighbors near facing
           Hr Ho).
Qed.

(** ** More on neighbors_in_radius *)

Section RadiusBounds.

Variables md ed esd cd : value -> value -> result Q.
Variable agent : AgentState.
Variable name : string.

(** A predicate call that returns has found the agent's position, the
    distance function, the candidate's position and their distance [d]; the
    same [d] is compared whatever the bounds are. *)
Lemma in_radius_distance (max_radius min_radius : Q) (c : AgentState)
    (b : bool) :
  in_radius md ed esd cd agent max_radius min_radius name c = Ok b ->
  exists d, forall hi lo,
    in_radius md ed esd cd agent hi lo name c
    = Ok (Qle_bool d hi && Qle_bool lo d).
Proof.
  unfold in_radius.
  destruct (getitem agent (KStr "position")) as [pos|]; simpl; [|discriminate].
  destruct (func md ed esd cd !! name) as [f|]; simpl; [|discriminate].
  destruct (getitem c (KStr "position")) as [p|]; simpl; [|discriminate].
  destruct (f p pos) as [d|]; simpl; [|discriminate].
  intros _. now exists d.
Qed.

Lemma neighbors_in_radius_inv (neighbors : list AgentState)
    (max_radius min_radius : Q) (z_axis : bool) (it : filter_obj) :
  neighbors_in_radius md ed esd cd agent neighbors max_radius min_radius
    name z_axis = Ok it ->
  it = Filter (in_radius md ed esd cd agent max_radius min_radius name)
         neighbors
  /\ forall others hi lo z,
       neighbors_in_radius md ed esd cd agent others hi lo name z
       = Ok (Filter (in_radius md ed esd cd agent hi lo name) others).
Proof.
  unfold neighbors_in_radius, raise_unless.
  destruct (getitem agent (KStr "position")) as [pos|]; simpl; [|discriminate].
  destruct (truthy pos); simpl; [|discriminate].
  intros [= <-]. split; reflexivity.
Qed.

End RadiusBounds.

(** X4: widening the radius bounds never loses a candidate: if the filter
    with bounds [min_radius, max_radius] is consumed without an exception,
    so is the filter with the wider bounds [lo, hi], and the first result is
    a subsequence of the second. *)
Theorem neighbors_in_radius_widen
    (md ed esd cd : value -> value -> result Q) (agent : AgentState)
    (neighbors : list AgentState) (max_radius min_radius hi lo : Q)
    (name : string) (z_axis : bool) (kept : list AgentState) :
  (max_radius <= hi)%Q -> (lo <= min_radius)%Q ->
  yields (neighbors_in_radius md ed esd cd agent neighbors max_radius
            min_radius name z_axis) kept ->
  exists more,
    yields (neighbors_in_radius md ed esd cd agent neighbors hi lo name
              z_axis) more
    /\ sublist kept more.
Proof.
  intros Hhi Hlo (it & Hcall & Hlist).
  destruct (neighbors_in_radius_inv _ _ _ _ _ _ _ _ _ _ _ Hcall)
    as [-> Hother].
  unfold to_list in Hlist. simpl in Hlist.
  destruct (drain_inv _ _ _ Hlist) as [Hall ->].
  set (p := in_radius md ed esd cd agent max_radius min_radius name) in *.
  set (q := in_radius md ed esd cd agent hi lo name).
  assert (Hq : forall x, In x neighbors ->
                 q x = Ok (accepts q x)
                 /\ (accepts p x = true -> accepts q x = true)).
  { intros x Hx. destruct (in_radius_distance _ _ _ _ _ _ _ _ _ _ (Hall x Hx))
      as [d Hd].
    unfold accepts, p, q. rewrite (Hd hi lo), (Hd max_radius min_radius).
    split; [reflexivity|].
    rewrite !Bool.andb_true_iff, !Qle_bool_iff. intros [H1 H2]. split.
    - now apply Qle_trans with max_radius.
    - now apply Qle_trans with min_radius. }
  exists (List.filter (accepts q) neighbors). split.
  - eexists. split; [apply Hother|]. unfold to_list. simpl.
    apply drain_filter. intros x Hx. now apply Hq.
  - apply filter_sublist_weaker. intros x Hx. now apply Hq.
Qed.

(** X5: with [max_radius < min_radius] no distance is in range: on
    candidates whose distance to the agent is defined, the filter returns the
    empty sequence. *)
Theorem neighbors_in_radius_empty_range
    (md ed esd cd : value -> value -> result Q) (agent : AgentState)
    (neighbors : list AgentState) (max_radius min_radius : Q)
    (name : string) (dist : value -> value -> result Q) (z_axis : bool)
    (pos : value) :
  agent !! KStr "position" = Some pos ->
  truthy pos = true ->
  In (name, dist) (named_distances md ed esd cd) ->
  (forall c, In c neighbors ->
     exists p d, c !! KStr "position" = Some p /\ dist p pos = Ok d) ->
  (max_radius < min_radius)%Q ->
  yields (neighbors_in_radius md ed esd cd agent neighbors max_radius
            min_radius name z_axis) [].
Proof.
  intros Hpos Ht Hname Hwf Hlt.
  eexists. split; [now apply neighbors_in_radius_ok with (pos := pos)|].
  unfold to_list. simpl.
  rewrite (drain_filter _ (fun _ => false)).
  - f_equal. clear. induction neighbors as [|x l IH]; simpl; trivial.
  - intros c Hc. destruct (Hwf c Hc) as (p & d & Hp & Hd).
    rewrite (in_radius_eval md ed esd cd agent pos Hpos max_radius
               min_radius name dist c p d (func_named _ _ _ _ _ _ Hname)
               Hp Hd).
    f_equal. apply Bool.andb_false_iff.
    destruct (Qle_bool d max_radius) eqn:E1; [right|now left].
    destruct (Qle_bool min_radius d) eqn:E2; [|reflexivity].
    apply Qle_bool_iff in E1, E2. exfalso.
    apply (Qlt_irrefl max_radius).
    apply Qlt_le_trans with min_radius; [exact Hlt|].
    now apply Qle_trans with d.
Qed.

(** X6: a malformed candidate is an error, not an exclusion.  When the
    candidates before it are well formed, a candidate without a position
    makes the consumption raise [KeyError("position")], and a candidate on
    whose position the distance function raises makes it raise that same
    exception; the candidates after it are never looked at. *)
Theorem neighbors_in_radius_propagates_errors
    (md ed esd cd : value -> value -> result Q) (agent : AgentState)
    (before after : list AgentState) (c : AgentState)
    (max_radius min_radius : Q) (name : string)
    (dist : value -> value -> result Q) (z_axis : bool) (pos : value) :
  agent !! KStr "position" = Some pos ->
  truthy pos = true ->
  In (name, dist) (named_distances md ed esd cd) ->
  (forall x, In x before ->
     exists p d, x !! KStr "position" = Some p /\ dist p pos = Ok d) ->
  exists it,
    neighbors_in_radius md ed esd cd agent (before ++ c :: after) max_radius
      min_radius name z_axis = Ok it
    /\ (c !! KStr "position" = None ->
        to_list it = Err (KeyError (KStr "position")))
    /\ (forall p e, c !! KStr "position" = Some p -> dist p pos = Err e ->
        to_list it = Err e).
Proof.
  intros Hpos Ht Hname Hwf.
  pose proof (func_named _ _ _ _ _ _ Hname) as Hf.
  eexists. split; [now apply neighbors_in_radius_ok with (pos := pos)|].
  assert (Hpre : forall x, In x before ->
                   exists b, in_radius md ed esd cd agent max_radius
                               min_radius name x = Ok b).
  { intros x Hx. destruct (Hwf x Hx) as (p & d & Hp & Hd). eexists.
    exact (in_radius_eval md ed esd cd agent pos Hpos max_radius min_radius
             name dist x p d Hf Hp Hd). }
  unfold to_list. simpl. split.
  - intros Hc. apply drain_raises_at; [exact Hpre|].
    unfold in_radius. rewrite (getitem_lookup _ _ _ Hpos). simpl.
    rewrite Hf. simpl. now rewrite (getitem_absent _ _ Hc).
  - intros p e Hc He. apply drain_raises_at; [exact Hpre|].
    unfold in_radius. rewrite (getitem_lookup _ _ _ Hpos). simpl.
    rewrite Hf. simpl. rewrite (getitem_lookup _ _ _ Hc). simpl.
    now rewrite He.
Qed.

(** ** More on the orientation tests *)

Lemma getitem_same (m1 m2 : AgentState) (k : key) :
  m1 !! k = m2 !! k -> getitem m1 k = getitem m2 k.
Proof. intros H. unfold getitem. now rewrite H. Qed.

Lemma displacement_first3 (nx ny nz px py pz : Z) (rn rp : list Z) :
  displacement (VList (nx :: ny :: nz :: rn)) (VList (px :: py :: pz :: rp))
  = Ok [nx - px; ny - py; nz - pz].
Proof. reflexivity. Qed.

Lemma displacement_short (pn pa : list Z) :
  (length pa < 3 \/ length pn < 3)%nat ->
  displacement (VList pn) (VList pa) = Err IndexError.
Proof.
  intros H.
  destruct pn as [|n0 [|n1 [|n2 pn]]], pa as [|a0 [|a1 [|a2 pa]]];
    simpl in H; try reflexivity; lia.
Qed.

(** X7: both orientation tests read the coordinates 0, 1 and 2 of the two
    positions: when the agent's or the candidate's position is a sequence of
    fewer than three coordinates, [in_front_planar] and [is_linear] raise
    [IndexError]. *)
Theorem orientation_tests_need_three_coordinates
    (agent neighbor : AgentState) (front : bool) (pa pn : list Z)
    (dir : value) :
  agent !! KStr "position" = Some (VList pa) ->
  neighbor !! KStr "position" = Some (VList pn) ->
  agent !! KStr "direction" = Some dir ->
  (length pa < 3 \/ length pn < 3)%nat ->
  in_front_planar agent neighbor = Err IndexError
  /\ is_linear agent neighbor front = Err IndexError.
Proof.
  intros Ha Hn Hd Hshort. unfold in_front_planar, is_linear.
  rewrite (getitem_lookup _ _ _ Ha), (getitem_lookup _ _ _ Hn),
    (getitem_lookup _ _ _ Hd).
  cbn [bind]. rewrite (displacement_short pn pa Hshort). split; reflexivity.
Qed.

(** X8: the orientation tests read nothing of a position beyond its first
    three coordinates: two agents with the same direction entry and two
    candidates, whose positions start with the same three coordinates, get
    the same answer (or the same exception) from [in_front_planar] and from
    [is_linear]. *)
Theorem orientation_tests_read_three_coordinates
    (agent agent2 neighbor neighbor2 : AgentState) (front : bool)
    (p n : Z * Z * Z) :
  starts3 agent "position" p -> starts3 agent2 "position" p ->
  starts3 neighbor "position" n -> starts3 neighbor2 "position" n ->
  agent !! KStr "direction" = agent2 !! KStr "direction" ->
  in_front_planar agent neighbor = in_front_planar agent2 neighbor2
  /\ is_linear agent neighbor front = is_linear agent2 neighbor2 front.
Proof.
  destruct p as [[px py] pz], n as [[nx ny] nz].
  intros [r1 H1] [r2 H2] [r3 H3] [r4 H4] Hd.
  unfold in_front_planar, is_linear.
  rewrite (getitem_lookup _ _ _ H1), (getitem_lookup _ _ _ H2),
    (getitem_lookup _ _ _ H3), (getitem_lookup _ _ _ H4),
    (getitem_same _ _ _ Hd).
  cbn [bind]. rewrite !displacement_first3. split; reflexivity.
Qed.

(** X9: the two tests treat the direction differently.  [is_linear] unpacks
    it into exactly three names and raises [ValueError] for a sequence of any
    other length; [in_front_planar] subscripts it, so it raises [IndexError]
    for fewer than three components and ignores any component after the
    third. *)
Theorem direction_length_handling
    (agent neighbor : AgentState) (front : bool) (p n : Z * Z * Z)
    (dir : list Z) :
  starts3 agent "position" p -> starts3 neighbor "position" n ->
  agent !! KStr "direction" = Some (VList dir) ->
  (length dir <> 3%nat -> is_linear agent neighbor front = Err ValueError)
  /\ ((length dir < 3)%nat -> in_front_planar agent neighbor = Err IndexError)
  /\ (forall ax ay az rest,
        dir = ax :: ay :: az :: rest ->
        in_front_planar agent neighbor
        = Ok (0 <? dot3 (ax, ay, az) (sub3 n p))).
Proof.
  destruct p as [[px py] pz], n as [[nx ny] nz].
  intros [rp Hp] [rn Hn] Hd. unfold in_front_planar, is_linear.
  rewrite (getitem_lookup _ _ _ Hp), (getitem_lookup _ _ _ Hn),
    (getitem_lookup _ _ _ Hd).
  cbn [bind]. rewrite !displacement_first3. cbn [bind].
  split; [|split].
  - intros Hlen.
    destruct dir as [|d0 [|d1 [|d2 [|d3 dir]]]]; simpl in *;
      try reflexivity; congruence.
  - intros Hlen.
    destruct dir as [|d0 [|d1 [|d2 dir]]]; simpl in *; try reflexivity; lia.
  - intros ax ay az rest ->. simpl. now rewrite Z.gtb_ltb.
Qed.



(** X10: both orientation tests depend on the two positions only through
    their difference: moving the agent and the candidate by the same vector
    [t] changes neither the answer of [in_front_planar] nor that of
    [is_linear]. *)
Theorem orientation_tests_translation_invariant
    (agent agent2 neighbor neighbor2 : AgentState) (front : bool)
    (p n t : Z * Z * Z) :
  vec3 agent "position" p -> vec3 agent2 "position" (add3 p t) ->
  vec3 neighbor "position" n -> vec3 neighbor2 "position" (add3 n t) ->
  agent !! KStr "direction" = agent2 !! KStr "direction" ->
  in_front_planar agent neighbor = in_front_planar agent2 neighbor2
  /\ is_linear agent neighbor front = is_linear agent2 neighbor2 front.
Proof.
  destruct p as [[px py] pz], n as [[nx ny] nz], t as [[tx ty] tz].
  unfold vec3, add3. intros H1 H2 H3 H4 Hd.
  unfold in_front_planar, is_linear.
  rewrite (getitem_lookup _ _ _ H1), (getitem_lookup _ _ _ H2),
    (getitem_lookup _ _ _ H3), (getitem_lookup _ _ _ H4),
    (getitem_same _ _ _ Hd).
  cbn [bind]. rewrite !displacement_first3.
  replace (nx + tx - (px + tx)) with (nx - px) by lia.
  replace (ny + ty - (py + ty)) with (ny - py) by lia.
  replace (nz + tz - (pz + tz)) with (nz - pz) by lia.
  split; reflexivity.
Qed.


(** ** More on colinear mode *)

(** [front] enters [is_linear] only in the last comparison: everything
    before it either raises, rejects, or computes the same-direction flag. *)
Lemma is_linear_front_last (agent neighbor : AgentState) :
  exists r : result (option bool),
    forall front,
      is_linear agent neighbor front
      = (do o <- r;
         Ok (match o with
             | Some same_dir => Bool.eqb same_dir front
             | None => false
             end)).
Proof.
  unfold is_linear.
  destruct (getitem agent (KStr "position")) as [a_pos|e];
    [|exists (Err e); reflexivity].
  destruct (getitem neighbor (KStr "position")) as [n_pos|e];
    [|exists (Err e); reflexivity].
  cbn [bind].
  destruct (displacement n_pos a_pos) as [d|e];
    [|exists (Err e); reflexivity].
  destruct d as [|dx [|dy [|dz [|extra d]]]];
    try (exists (Err ValueError); reflexivity).
  cbn [bind].
  destruct (getitem agent (KStr "direction")) as [a_dir|e];
    [|exists (Err e); reflexivity].
  cbn [bind].
  destruct (unpack3 a_dir) as [[[ax ay] az]|e];
    [|exists (Err e); reflexivity].
  cbn [bind]. rewrite all_zero_reduce. cbn [bind truthy].
  destruct (negb (negb _ && _)).
  - exists (Ok None). reflexivity.
  - eexists (Ok (Some _)). reflexivity.
Qed.

Lemma is_linear_exclusive (agent neighbor : AgentState) :
  is_linear agent neighbor true = Ok true ->
  is_linear agent neighbor false = Ok false.
Proof.
  destruct (is_linear_front_last agent neighbor) as [r Hr].
  rewrite !Hr. destruct r as [[[|]|]|e]; simpl; congruence.
Qed.

(** X12: the two colinear-mode results are disjoint, whatever the agent and
    the candidates are: a candidate returned by [neighbors_in_front] with
    [colinear=True] is not returned by [neighbors_behind] with
    [colinear=True]. *)
Theorem colinear_results_disjoint (agent : AgentState)
    (neighbors front behind : list AgentState) :
  yields (neighbors_in_front agent neighbors true) front ->
  yields (neighbors_behind agent neighbors true) behind ->
  forall c, In c front -> ~ In c behind.
Proof.
  intros (itf & Hcf & Hlf) (itb & Hcb & Hlb) c Hf Hb.
  unfold neighbors_in_front, neighbors_behind, raise_unless in Hcf, Hcb.
  destruct (getitem agent (KStr "position")) as [pos|]; simpl in *;
    [|discriminate].
  destruct (truthy pos); simpl in *; [|discriminate].
  destruct (getitem agent (KStr "direction")) as [dir|]; simpl in *;
    [|discriminate].
  destruct (truthy dir); simpl in *; [|discriminate].
  injection Hcf as <-. injection Hcb as <-.
  unfold to_list in Hlf, Hlb. simpl in Hlf, Hlb.
  destruct (drain_inv _ _ _ Hlf) as [Hallf ->].
  destruct (drain_inv _ _ _ Hlb) as [Hallb ->].
  apply List.filter_In in Hf as [Hc Hf]. apply List.filter_In in Hb as [_ Hb].
  pose proof (Hallf c Hc) as H1. pose proof (Hallb c Hc) as H2.
  simpl in H1, H2. rewrite Hf in H1. rewrite Hb in H2.
  rewrite (is_linear_exclusive agent c H1) in H2. discriminate.
Qed.

(** X13: on three-component vectors, [is_linear] returns true exactly when
    the third component of the cross product [d x direction] is zero, one of
    its first two components is not, and the same-direction flag equals
    [front]. *)
Theorem is_linear_true_iff (agent neighbor : AgentState) (front : bool)
    (p a n : Z * Z * Z) :
  vec3 agent "position" p -> vec3 agent "direction" a ->
  vec3 neighbor "position" n ->
  let d := sub3 n p in
  let '(cx, cy, cz) := cross3 d a in
  exists b, is_linear agent neighbor front = Ok b
            /\ (b = true <->
                (cx <> 0 \/ cy <> 0) /\ cz = 0
                /\ same_direction d a = front).
Proof.
  intros Hp Ha Hn.
  pose proof (is_linear_eval agent neighbor front p a n Hp Ha Hn) as H.
  destruct p as [[px py] pz], a as [[ax ay] az], n as [[nx ny] nz].
  simpl in H. simpl. eexists. split; [exact H|].
  set (s := ((0 <? nx - px) && (0 <? ax)) || ((0 <? ny - py) && (0 <? ay))
            || ((0 <? nz - pz) && (0 <? az))).
  destruct (Z.eqb_spec ((ny - py) * az - (nz - pz) * ay) 0) as [E0|E0];
    destruct (Z.eqb_spec ((nx - px) * az - (nz - pz) * ax) 0) as [E1|E1];
    destruct (Z.eqb_spec ((nx - px) * ay - (ny - py) * ax) 0) as [E2|E2];
    simpl; rewrite ?Bool.eqb_true_iff;
    (split; [try discriminate; intros Hs; repeat split; trivial; lia
            | intros [[Hc|Hc] [Hz Hs]]; trivial; lia]).
Qed.

(** X14: on three-component vectors, colinear mode never returns a candidate
    that lies on the facing axis: both filters are consumed without an
    exception, and a candidate whose displacement has a zero cross product
    with the direction is in neither result. *)
Theorem colinear_mode_never_returns_axis_candidates (agent : AgentState)
    (neighbors : list AgentState) (p a : Z * Z * Z) :
  vec3 agent "position" p -> vec3 agent "direction" a ->
  (forall c, In c neighbors -> exists n, vec3 c "position" n) ->
  exists front behind,
    yields (neighbors_in_front agent neighbors true) front
    /\ yields (neighbors_behind agent neighbors true) behind
    /\ forall c n,
         In c neighbors -> vec3 c "position" n ->
         cross3 (sub3 n p) a = (0, 0, 0) ->
         ~ In c front /\ ~ In c behind.
Proof.
  intros Hp Ha Hwf.
  destruct (vec3_truthy _ _ _ Hp) as (pos & Hpos & Htp).
  destruct (vec3_truthy _ _ _ Ha) as (dir & Hdir & Htd).
  assert (Hev : forall front c, In c neighbors ->
            is_linear agent c front
            = Ok (accepts (fun x => is_linear agent x front) c)).
  { intros front c Hc. destruct (Hwf c Hc) as [n Hn].
    pose proof (is_linear_eval agent c front p a n Hp Ha Hn) as H.
    destruct p as [[px py] pz], a as [[ax ay] az], n as [[nx ny] nz].
    simpl in H. unfold accepts. now rewrite H. }
  exists (List.filter (accepts (fun x => is_linear agent x true)) neighbors),
    (List.filter (accepts (fun x => is_linear agent x false)) neighbors).
  split; [|split].
  - eexists. split.
    + now apply neighbors_in_front_ok with (pos := pos) (dir := dir).
    + unfold to_list. simpl. apply drain_filter. intros c Hc. now apply Hev.
  - eexists. split.
    + now apply neighbors_behind_ok with (pos := pos) (dir := dir).
    + unfold to_list. simpl. apply drain_filter. intros c Hc. now apply Hev.
  - intros c n Hc Hn Hcross.
    split; intros Hin; apply List.filter_In in Hin as [_ Hin];
      unfold accepts in Hin;
      rewrite (is_linear_on_axis agent c _ p a n Hp Ha Hn Hcross) in Hin;
      discriminate.
Qed.

(** X15: a direction of [(0, 0, 0)] is a non-empty sequence and passes the
    direction guard.  On three-component positions, planar mode then puts no
    candidate in front and every candidate behind, and colinear mode returns
    no candidate at all. *)
Theorem zero_direction (agent : AgentState) (neighbors : list AgentState)
    (p : Z * Z * Z) :
  vec3 agent "position" p -> vec3 agent "direction" (0, 0, 0) ->
  (forall c, In c neighbors -> exists n, vec3 c "position" n) ->
  yields (neighbors_in_front agent neighbors false) []
  /\ yields (neighbors_behind agent neighbors false) neighbors
  /\ yields (neighbors_in_front agent neighbors true) []
  /\ yields (neighbors_behind agent neighbors true) [].
Proof.
  intros Hp Ha Hwf.
  destruct (vec3_truthy _ _ _ Hp) as (pos & Hpos & Htp).
  destruct (vec3_truthy _ _ _ Ha) as (dir & Hdir & Htd).
  assert (Hnone : List.filter (fun _ : AgentState => false) neighbors = [])
    by (clear; induction neighbors; simpl; trivial).
  assert (Hall : List.filter (fun _ : AgentState => true) neighbors
                 = neighbors)
    by (clear; induction neighbors; simpl; congruence).
  assert (Hplanar : forall c, In c neighbors ->
            in_front_planar agent c = Ok false).
  { intros c Hc. destruct (Hwf c Hc) as [n Hn].
    rewrite (in_front_planar_eval agent c p (0, 0, 0) n Hp Ha Hn).
    destruct p as [[px py] pz], n as [[nx ny] nz]. reflexivity. }
  assert (Hlinear : forall front c, In c neighbors ->
            is_linear agent c front = Ok false).
  { intros front c Hc. destruct (Hwf c Hc) as [n Hn].
    apply (is_linear_on_axis agent c front p (0, 0, 0) n Hp Ha Hn).
    destruct p as [[px py] pz], n as [[nx ny] nz]. simpl.
    repeat f_equal; lia. }
  repeat split.
  - eexists. split.
    + now apply neighbors_in_front_ok with (pos := pos) (dir := dir).
    + unfold to_list. simpl. rewrite <- Hnone. now apply drain_filter.
  - eexists. split.
    + now apply neighbors_behind_ok with (pos := pos) (dir := dir).
    + unfold to_list. simpl. rewrite <- Hall at 2. apply drain_filter.
      intros c Hc. now rewrite (Hplanar c Hc).
  - eexists. split.
    + now apply neighbors_in_front_ok with (pos := pos) (dir := dir).
    + unfold to_list. simpl. rewrite <- Hnone. apply drain_filter.
      intros c Hc. now apply Hlinear.
  - eexists. split.
    + now apply neighbors_behind_ok with (pos := pos) (dir := dir).
    + unfold to_list. simpl. rewrite <- Hnone. apply drain_filter.
      intros c Hc. now apply Hlinear.
Qed.

(** ** More on neighbors_on_position *)

Lemma comprehension_ext {A : Type} (f g : nat -> result A) (inds : list nat) :
  (forall ind, f ind = g ind) -> comprehension f inds = comprehension g inds.
Proof.
  intros H. induction inds as [|i inds IH]; simpl; trivial.
  now rewrite H, IH.
Qed.

Lemma subscripts_equal_verdicts (c : AgentState) (start : nat) (pos : list Z) :
  subscripts_equal c start pos
  = forallb (fun b => b) (subscript_verdicts c start pos).
Proof.
  revert start. induction pos as [|x pos IH]; intros start; simpl; trivial.
  now rewrite IH.
Qed.

Lemma comprehension_verdicts (c : AgentState) (pre suf : list Z) :
  has_subscripts c (length pre) suf ->
  comprehension
    (fun ind =>
       do x <- index (VList (pre ++ suf)) ind;
       do y <- getitem c (KInt (Z.of_nat ind));
       Ok (VBool (py_eq (VNum x) y)))
    (seq (length pre) (length suf))
  = Ok (map VBool (subscript_verdicts c (length pre) suf)).
Proof.
  revert pre. induction suf as [|x suf IH]; intros pre; simpl.
  - reflexivity.
  - intros [[y Hy] Hrest].
    rewrite nth_error_app2, Nat.sub_diag by lia. simpl.
    rewrite (getitem_lookup _ _ _ Hy), Hy. simpl.
    specialize (IH (pre ++ [x])%list).
    rewrite <- app_assoc, length_app, Nat.add_comm in IH. simpl in IH.
    rewrite (IH Hrest). reflexivity.
Qed.

Lemma all_equal_reduce (b : bool) (bs : list bool) :
  fold_left (fun x y => VBool (truthy (py_and x y))) (map VBool bs) (VBool b)
  = VBool (b && forallb (fun b => b) bs).
Proof.
  revert b. induction bs as [|b' bs IH]; intros b; simpl.
  - now rewrite Bool.andb_true_r.
  - unfold py_and at 2. simpl. destruct b; simpl; rewrite IH; reflexivity.
Qed.

(** X16: what [on_position] computes.  For an agent whose position is a
    non-empty sequence and a candidate that holds a value under each of the
    integer keys [0 .. len(pos) - 1], the predicate returns true exactly when
    [pos[i] == candidate[i]] for every [i]; the candidate's own position
    field plays no part. *)
Theorem on_position_compares_subscripts (agent c : AgentState)
    (x : Z) (xs : list Z) :
  agent !! KStr "position" = Some (VList (x :: xs)) ->
  has_subscripts c 0 (x :: xs) ->
  on_position agent c = Ok (subscripts_equal c 0 (x :: xs)).
Proof.
  intros Hp Hc. unfold on_position.
  rewrite (getitem_lookup _ _ _ Hp). cbn [bind py_len length].
  pose proof (comprehension_verdicts c [] (x :: xs) Hc) as Hv.
  cbn [app length] in Hv. rewrite Hv. cbn [bind].
  rewrite subscripts_equal_verdicts.
  cbn [subscript_verdicts map reduce bind forallb].
  rewrite all_equal_reduce. reflexivity.
Qed.

(** X17: the predicate of [neighbors_on_position] reads a candidate only
    under integer keys: two candidates that agree on every integer key get
    the same verdict (or the same exception), whatever their other fields,
    their position included, hold. *)
Theorem on_position_reads_integer_keys_only (agent c c2 : AgentState) :
  (forall i, c !! KInt i = c2 !! KInt i) ->
  on_position agent c = on_position agent c2.
Proof.
  intros H. unfold on_position.
  destruct (getitem agent (KStr "position")) as [pos|e]; simpl; trivial.
  destruct (py_len pos) as [n|e]; simpl; trivial.
  rewrite (comprehension_ext _
             (fun ind =>
                do x <- index pos ind;
                do y <- getitem c2 (KInt (Z.of_nat ind));
                Ok (VBool (py_eq (VNum x) y)))); trivial.
  intros ind. now rewrite (getitem_same c c2 _ (H (Z.of_nat ind))).
Qed.

(** X18: for an agent whose position is a non-empty sequence, a candidate
    sequence whose first candidate has no integer key [0] (any record keyed
    by field names) makes [neighbors_on_position] return an iterator whose
    evaluation raises [KeyError(0)]. *)
Theorem neighbors_on_position_key_error (agent c : AgentState)
    (rest : list AgentState) (x : Z) (xs : list Z) :
  agent !! KStr "position" = Some (VList (x :: xs)) ->
  c !! KInt 0 = None ->
  raises_when_evaluated (neighbors_on_position agent (c :: rest))
    (KeyError (KInt 0)).
Proof.
  intros Hp Hc.
  pose proof (on_position_subscripts_candidate agent c x xs Hp Hc) as He.
  eexists. split.
  - now apply neighbors_on_position_ok with (pos := VList (x :: xs)).
  - split.
    + now apply next_raises_first.
    + unfold to_list. simpl fpred. simpl fitems.
      now apply drain_raises_first.
Qed.

(** ** The further properties at concrete inputs *)

Lemma filters_return_subsequence_witness :
  sublist [at_position [2; 0; 0]]
    [at_position [2; 0; 0]; at_position [-2; 0; 0]; at_position [0; 2; 0]].
Proof.
  apply (filters_return_subsequence manhattan_distance euclidean_distance
           euclidean_squared_distance chebyshev_distance ex_agent
           [at_position [2; 0; 0]; at_position [-2; 0; 0];
            at_position [0; 2; 0]]
           (inject_Z 1) (inject_Z 0) "euclidean" false false
           [at_position [2; 0; 0]]).
  right. right. left. eexists. split; reflexivity.
Defined.

Lemma filters_are_idempotent_witness :
  yields (neighbors_behind ex_agent
            [at_position [-2; 0; 0]; at_position [0; 2; 0]] false)
    [at_position [-2; 0; 0]; at_position [0; 2; 0]].
Proof.
  apply (filters_are_idempotent manhattan_distance euclidean_distance
           euclidean_squared_distance chebyshev_distance ex_agent
           [at_position [2; 0; 0]; at_position [-2; 0; 0];
            at_position [0; 2; 0]]
           (inject_Z 1) (inject_Z 0) "euclidean" false false
           [at_position [-2; 0; 0]; at_position [0; 2; 0]]).
  eexists. split; reflexivity.
Defined.

Lemma radius_and_orientation_commute_witness :
  exists kept,
    yields (neighbors_in_front ex_agent
              [at_position [2; 0; 0]; at_position [-2; 0; 0]] false) kept
    /\ yields (neighbors_in_radius manhattan_distance euclidean_distance
                 euclidean_squared_distance chebyshev_distance ex_agent
                 [at_position [2; 0; 0]; at_position [9; 0; 0]]
                 (inject_Z 3) (inject_Z 0) "manhattan" false) kept.
Proof.
  apply (radius_and_orientation_commute manhattan_distance euclidean_distance
           euclidean_squared_distance chebyshev_distance ex_agent
           [at_position [2; 0; 0]; at_position [-2; 0; 0];
            at_position [9; 0; 0]]
           (inject_Z 3) (inject_Z 0) "manhattan" false false false
           [at_position [2; 0; 0]; at_position [-2; 0; 0]]
           [at_position [2; 0; 0]; at_position [9; 0; 0]]).
  - eexists. split; reflexivity.
  - eexists. split; reflexivity.
Defined.

Lemma neighbors_in_radius_widen_witness :
  exists more,
    yields (neighbors_in_radius manhattan_distance euclidean_distance
              euclidean_squared_distance chebyshev_distance ex_agent
              [at_position [1; 0; 0]; at_position [3; 0; 0]]
              (inject_Z 3) (inject_Z 0) "manhattan" false) more
    /\ sublist [at_position [3; 0; 0]] more.
Proof.
  apply (neighbors_in_radius_widen manhattan_distance euclidean_distance
           euclidean_squared_distance chebyshev_distance ex_agent
           [at_position [1; 0; 0]; at_position [3; 0; 0]]
           (inject_Z 3) (inject_Z 2) (inject_Z 3) (inject_Z 0) "manhattan"
           false [at_position [3; 0; 0]]).
  - unfold Qle. simpl. lia.
  - unfold Qle. simpl. lia.
  - eexists. split; reflexivity.
Defined.

Lemma neighbors_in_radius_empty_range_witness :
  yields (neighbors_in_radius manhattan_distance euclidean_distance
            euclidean_squared_distance chebyshev_distance ex_agent
            [at_position [1; 0; 0]; at_position [2; 0; 0]]
            (inject_Z 1) (inject_Z 2) "chebyshev" false) [].
Proof.
  apply (neighbors_in_radius_empty_range manhattan_distance
           euclidean_distance euclidean_squared_distance chebyshev_distance
           ex_agent [at_position [1; 0; 0]; at_position [2; 0; 0]]
           (inject_Z 1) (inject_Z 2) "chebyshev" chebyshev_distance false
           (VList [0; 0; 0])).
  - reflexivity.
  - reflexivity.
  - right. right. right. left. reflexivity.
  - intros c [<-|[<-|[]]].
    + exists (VList [1; 0; 0]), (inject_Z 1). split; reflexivity.
    + exists (VList [2; 0; 0]), (inject_Z 2). split; reflexivity.
  - unfold Qlt. simpl. lia.
Defined.

(** A candidate without a position, and a candidate whose position has two
    coordinates where the agent's has three. *)
Lemma neighbors_in_radius_propagates_errors_witness :
  (exists it,
     neighbors_in_radius manhattan_distance euclidean_distance
       euclidean_squared_distance chebyshev_distance ex_agent
       ([at_position [1; 0; 0]] ++ ∅ :: [at_position [2; 0; 0]])
       (inject_Z 1) (inject_Z 0) "manhattan" false = Ok it
     /\ to_list it = Err (KeyError (KStr "position")))
  /\ (exists it,
        neighbors_in_radius manhattan_distance euclidean_distance
          euclidean_squared_distance chebyshev_distance ex_agent
          ([at_position [1; 0; 0]] ++ at_position [1; 0]
                                   :: [at_position [2; 0; 0]])
          (inject_Z 1) (inject_Z 0) "manhattan" false = Ok it
        /\ to_list it = Err ValueError).
Proof.
  split.
  - destruct (neighbors_in_radius_propagates_errors manhattan_distance
                euclidean_distance euclidean_squared_distance
                chebyshev_distance ex_agent [at_position [1; 0; 0]]
                [at_position [2; 0; 0]] ∅ (inject_Z 1) (inject_Z 0)
                "manhattan" manhattan_distance false (VList [0; 0; 0]))
      as (it & Hcall & Hmissing & _).
    + reflexivity.
    + reflexivity.
    + left. reflexivity.
    + intros x [<-|[]].
      exists (VList [1; 0; 0]), (inject_Z 1). split; reflexivity.
    + exists it. split; [exact Hcall|]. apply Hmissing. reflexivity.
  - destruct (neighbors_in_radius_propagates_errors manhattan_distance
                euclidean_distance euclidean_squared_distance
                chebyshev_distance ex_agent [at_position [1; 0; 0]]
                [at_position [2; 0; 0]] (at_position [1; 0]) (inject_Z 1)
                (inject_Z 0) "manhattan" manhattan_distance false
                (VList [0; 0; 0]))
      as (it & Hcall & _ & Hraises).
    + reflexivity.
    + reflexivity.
    + left. reflexivity.
    + intros x [<-|[]].
      exists (VList [1; 0; 0]), (inject_Z 1). split; reflexivity.
    + exists it. split; [exact Hcall|].
      apply (Hraises (VList [1; 0])); reflexivity.
Defined.

Lemma orientation_tests_need_three_coordinates_witness :
  in_front_planar (mk_agent (VList [0; 0]) (VList [1; 0; 0]))
    (at_position [1; 1]) = Err IndexError
  /\ is_linear (mk_agent (VList [0; 0]) (VList [1; 0; 0]))
       (at_position [1; 1]) true = Err IndexError.
Proof.
  apply (orientation_tests_need_three_coordinates
           (mk_agent (VList [0; 0]) (VList [1; 0; 0])) (at_position [1; 1])
           true [0; 0] [1; 1] (VList [1; 0; 0])).
  - reflexivity.
  - reflexivity.
  - reflexivity.
  - left. simpl. lia.
Defined.

Lemma orientation_tests_read_three_coordinates_witness :
  in_front_planar (mk_agent (VList [0; 0; 0; 7]) (VList [1; 0; 0]))
    (at_position [2; 0; 0; 9])
  = in_front_planar ex_agent (at_position [2; 0; 0])
  /\ is_linear (mk_agent (VList [0; 0; 0; 7]) (VList [1; 0; 0]))
       (at_position [2; 0; 0; 9]) true
     = is_linear ex_agent (at_position [2; 0; 0]) true.
Proof.
  apply (orientation_tests_read_three_coordinates
           (mk_agent (VList [0; 0; 0; 7]) (VList [1; 0; 0])) ex_agent
           (at_position [2; 0; 0; 9]) (at_position [2; 0; 0]) true
           (0, 0, 0) (2, 0, 0)).
  - exists [7]. reflexivity.
  - exists []. reflexivity.
  - exists [9]. reflexivity.
  - exists []. reflexivity.
  - reflexivity.
Defined.

Lemma direction_length_handling_witness :
  is_linear (mk_agent (VList [0; 0; 0]) (VList [1; 0]))
    (at_position [2; 0; 0]) true = Err ValueError
  /\ in_front_planar (mk_agent (VList [0; 0; 0]) (VList [1; 0]))
       (at_position [2; 0; 0]) = Err IndexError.
Proof.
  destruct (direction_length_handling
              (mk_agent (VList [0; 0; 0]) (VList [1; 0]))
              (at_position [2; 0; 0]) true (0, 0, 0) (2, 0, 0) [1; 0])
    as (Hlinear & Hplanar & _).
  - exists []. reflexivity.
  - exists []. reflexivity.
  - reflexivity.
  - split.
    + apply Hlinear. simpl. lia.
    + apply Hplanar. simpl. lia.
Defined.

Lemma orientation_tests_translation_invariant_witness :
  in_front_planar ex_agent (at_position [2; 0; 0])
  = in_front_planar (mk_agent (VList [5; 6; 7]) (VList [1; 0; 0]))
      (at_position [7; 6; 7])
  /\ is_linear ex_agent (at_position [2; 0; 0]) true
     = is_linear (mk_agent (VList [5; 6; 7]) (VList [1; 0; 0]))
         (at_position [7; 6; 7]) true.
Proof.
  apply (orientation_tests_translation_invariant ex_agent
           (mk_agent (VList [5; 6; 7]) (VList [1; 0; 0]))
           (at_position [2; 0; 0]) (at_position [7; 6; 7]) true
           (0, 0, 0) (2, 0, 0) (5, 6, 7)); reflexivity.
Defined.


Lemma colinear_results_disjoint_witness :
  ~ In (at_position [0; 1; 1]) [].
Proof.
  apply (colinear_results_disjoint
           (mk_agent (VList [0; 0; 0]) (VList [0; 0; 1]))
           [at_position [0; 1; 1]] [at_position [0; 1; 1]] []).
  - eexists. split; reflexivity.
  - eexists. split; reflexivity.
  - left. reflexivity.
Defined.

Lemma is_linear_true_iff_witness :
  exists b,
    is_linear (mk_agent (VList [0; 0; 0]) (VList [0; 0; 1]))
      (at_position [0; 1; 1]) true = Ok b
    /\ (b = true <-> (1 <> 0 \/ 0 <> 0) /\ 0 = 0 /\ true = true).
Proof.
  apply (is_linear_true_iff (mk_agent (VList [0; 0; 0]) (VList [0; 0; 1]))
           (at_position [0; 1; 1]) true (0, 0, 0) (0, 0, 1) (0, 1, 1));
    reflexivity.
Defined.

Lemma colinear_mode_never_returns_axis_candidates_witness :
  exists front behind,
    yields (neighbors_in_front ex_agent
              [at_position [2; 0; 0]; at_position [-2; 0; 0]] true) front
    /\ yields (neighbors_behind ex_agent
                 [at_position [2; 0; 0]; at_position [-2; 0; 0]] true) behind
    /\ ~ In (at_position [2; 0; 0]) front
    /\ ~ In (at_position [-2; 0; 0]) behind.
Proof.
  destruct (colinear_mode_never_returns_axis_candidates ex_agent
              [at_position [2; 0; 0]; at_position [-2; 0; 0]]
              (0, 0, 0) (1, 0, 0))
    as (front & behind & Hf & Hb & Hout).
  - reflexivity.
  - reflexivity.
  - intros c [<-|[<-|[]]].
    + exists (2, 0, 0). reflexivity.
    + exists (-2, 0, 0). reflexivity.
  - exists front, behind. split; [exact Hf|]. split; [exact Hb|]. split.
    + apply (Hout (at_position [2; 0; 0]) (2, 0, 0));
        [left; reflexivity|reflexivity|reflexivity].
    + apply (Hout (at_position [-2; 0; 0]) (-2, 0, 0));
        [right; left; reflexivity|reflexivity|reflexivity].
Defined.

Lemma zero_direction_witness :
  yields (neighbors_in_front (mk_agent (VList [0; 0; 0]) (VList [0; 0; 0]))
            [at_position [2; 0; 0]; at_position [0; 2; 0]] false) []
  /\ yields (neighbors_behind (mk_agent (VList [0; 0; 0]) (VList [0; 0; 0]))
               [at_position [2; 0; 0]; at_position [0; 2; 0]] false)
       [at_position [2; 0; 0]; at_position [0; 2; 0]]
  /\ yields (neighbors_in_front (mk_agent (VList [0; 0; 0]) (VList [0; 0; 0]))
               [at_position [2; 0; 0]; at_position [0; 2; 0]] true) []
  /\ yields (neighbors_behind (mk_agent (VList [0; 0; 0]) (VList [0; 0; 0]))
               [at_position [2; 0; 0]; at_position [0; 2; 0]] true) [].
Proof.
  apply (zero_direction (mk_agent (VList [0; 0; 0]) (VList [0; 0; 0]))
           [at_position [2; 0; 0]; at_position [0; 2; 0]] (0, 0, 0)).
  - reflexivity.
  - reflexivity.
  - intros c [<-|[<-|[]]].
    + exists (2, 0, 0). reflexivity.
    + exists (0, 2, 0). reflexivity.
Defined.

(** A candidate keyed by the integers 0 and 1 is what the predicate
    accepts. *)
Lemma on_position_compares_subscripts_witness :
  on_position (at_position [1; 2])
    (<[KInt 0 := VNum 1]> (<[KInt 1 := VNum 2]> ∅))
  = Ok true.
Proof.
  refine (eq_trans
            (on_position_compares_subscripts (at_position [1; 2])
               (<[KInt 0 := VNum 1]> (<[KInt 1 := VNum 2]> ∅)) 1 [2] _ _)
            _).
  - reflexivity.
  - simpl. repeat split; eexists; reflexivity.
  - reflexivity.
Defined.

Lemma on_position_reads_integer_keys_only_witness :
  on_position (at_position [1; 2]) (at_position [1; 2])
  = on_position (at_position [1; 2]) ∅.
Proof.
  apply (on_position_reads_integer_keys_only (at_position [1; 2])
           (at_position [1; 2]) ∅).
  intros i. unfold at_position.
  rewrite lookup_singleton_ne by discriminate. now rewrite lookup_empty.
Defined.

Lemma neighbors_on_position_key_error_witness :
  raises_when_evaluated
    (neighbors_on_position (at_position [3; 4])
       [at_position [3; 4]; at_position [0; 0]])
    (KeyError (KInt 0)).
Proof.
  apply (neighbors_on_position_key_error (at_position [3; 4])
           (at_position [3; 4]) [at_position [0; 0]] 3 [4]); reflexivity.
Defined.

(** X19: the reference agent among its own candidates.  With a
    three-component position and direction, the agent is at distance zero
    from itself along every axis: planar mode never puts it in front and
    always puts it behind, and colinear mode returns it from neither
    filter. *)
Theorem agent_among_candidates (agent : AgentState) (p a : Z * Z * Z) :
  vec3 agent "position" p -> vec3 agent "direction" a ->
  yields (neighbors_in_front agent [agent] false) []
  /\ yields (neighbors_behind agent [agent] false) [agent]
  /\ yields (neighbors_in_front agent [agent] true) []
  /\ yields (neighbors_behind agent [agent] true) [].
Proof.
  intros Hp Ha.
  destruct (vec3_truthy _ _ _ Hp) as (pos & Hpos & Htp).
  destruct (vec3_truthy _ _ _ Ha) as (dir & Hdir & Htd).
  assert (Hplanar : in_front_planar agent agent = Ok false).
  { rewrite (in_front_planar_eval agent agent p a p Hp Ha Hp).
    destruct p as [[px py] pz], a as [[ax ay] az]. simpl.
    f_equal. apply Z.ltb_ge. lia. }
  assert (Hlinear : forall front, is_linear agent agent front = Ok false).
  { intros front. apply (is_linear_on_axis agent agent front p a p Hp Ha Hp).
    destruct p as [[px py] pz], a as [[ax ay] az]. simpl.
    repeat f_equal; lia. }
  repeat split; eexists.
  - split.
    + now apply neighbors_in_front_ok with (pos := pos) (dir := dir).
    + unfold to_list. simpl. now rewrite Hplanar.
  - split.
    + now apply neighbors_behind_ok with (pos := pos) (dir := dir).
    + unfold to_list. simpl. now rewrite Hplanar.
  - split.
    + now apply neighbors_in_front_ok with (pos := pos) (dir := dir).
    + unfold to_list. simpl. now rewrite Hlinear.
  - split.
    + now apply neighbors_behind_ok with (pos := pos) (dir := dir).
    + unfold to_list. simpl. now rewrite Hlinear.
Qed.

Lemma agent_among_candidates_witness :
  yields (neighbors_in_front ex_agent [ex_agent] false) []
  /\ yields (neighbors_behind ex_agent [ex_agent] false) [ex_agent]
  /\ yields (neighbors_in_front ex_agent [ex_agent] true) []
  /\ yields (neighbors_behind ex_agent [ex_agent] true) [].
Proof.
  apply (agent_among_candidates ex_agent (0, 0, 0) (1, 0, 0)); reflexivity.
Defined.
